(** * go-datadog-api: the request pipeline, embedded and verified

    A shallow embedding of [request.go], [ratelimit.go] and the [Client]
    declaration of the Datadog API client, followed by the properties of the
    request pipeline: method dispatch, key redaction, retry classification,
    response handling, rate-limit extraction and back-off selection.

    Go strings are byte sequences and are modelled as [list ascii]; Go's
    [int], [int64] and [time.Duration] are modelled as [Z] (a duration counts
    nanoseconds).  Functions of Go's standard library and of
    [github.com/cenkalti/backoff] that the pipeline calls are either written
    out from their documented behaviour ([strings.Replace], [strconv.ParseInt],
    [Header.Get], [backoff.RetryNotify]) or taken from the interface [GoLib]
    ([url.Parse], [json.Marshal], [json.Unmarshal], [strconv.ParseFloat],
    the transport). *)

From Stdlib Require Import ZArith Lia Ascii String List DecimalString DecimalPos.
From stdpp Require Import base option list gmap strings.

Local Open Scope Z_scope.

(** ** Go strings *)

Module GoString.

Definition gostring : Type := list ascii.

(** A string literal of the source. *)
Definition gs (s : string) : gostring := list_ascii_of_string s.

(** [strings.HasPrefix(s, p)]. *)
Fixpoint HasPrefix (s p : gostring) {struct p} : bool :=
  match p, s with
  | [], _ => true
  | _ :: _, [] => false
  | a :: p', b :: s' => if Ascii.eqb a b then HasPrefix s' p' else false
  end.

(** [strings.Contains(s, sub)], as a computable test. *)
Fixpoint Contains (s sub : gostring) : bool :=
  HasPrefix s sub ||
  match s with
  | [] => false
  | _ :: s' => Contains s' sub
  end.

(** [sub] occurs verbatim in [s]. *)
Definition Occurs (sub s : gostring) : Prop :=
  exists pre post, s = pre ++ sub ++ post.

(** The loop of [strings.Replace(s, old, new, -1)] for a non-empty [old]:
    scanning from the left, every non-overlapping instance of [old] is
    replaced by [new].  [fuel] bounds the number of positions visited. *)
Fixpoint replace_loop (fuel : nat) (s old new : gostring) : gostring :=
  match fuel with
  | O => s
  | S fuel' =>
      match s with
      | [] => []
      | c :: s' =>
          if HasPrefix s old
          then new ++ replace_loop fuel' (drop (length old) s) old new
          else c :: replace_loop fuel' s' old new
      end
  end.

(** [strings.Replace(s, old, new, -1)].  The pipeline only calls it with a
    non-empty [old] (the call is guarded by [len(key) > 0]); for an empty
    [old] Go inserts [new] at every rune boundary, which is not modelled:
    the model leaves [s] as it is. *)
Definition Replace (s old new : gostring) : gostring :=
  match old with
  | [] => s
  | _ :: _ => replace_loop (length s) s old new
  end.

(** What [strings.Replace] does to a string, as a relation: some instances
    of [old], each preceded by a stretch without [old], are replaced. *)
Inductive Replaced (old new : gostring) : gostring -> gostring -> Prop :=
  | Replaced_none s : ~ Occurs old s -> Replaced old new s s
  | Replaced_hit u t t' :
      ~ Occurs old u -> Replaced old new t t' ->
      Replaced old new (u ++ old ++ t) (u ++ new ++ t').

(** [strconv.Itoa] / the verb [%d] of [fmt]. *)
Definition Itoa (n : Z) : gostring :=
  gs (NilZero.string_of_int (Z.to_int n)).

(** Two strings overlap when a non-empty suffix of one is a prefix of the
    other or has the other as a prefix. *)
Definition comparable (a b : gostring) : bool := HasPrefix a b || HasPrefix b a.

Fixpoint suffix_clash (k r : gostring) : bool :=
  match k with
  | [] => false
  | _ :: k' => comparable k r || suffix_clash k' r
  end.

(** [k] and [r] cannot overlap in any string: no occurrence of [k] can share
    a position with an occurrence of [r]. *)
Definition no_overlap (k r : gostring) : bool :=
  negb (suffix_clash k r) && negb (suffix_clash r k).

(** [k] and [r] have no byte in common. *)
Definition disjoint_bytes (k r : gostring) : bool :=
  forallb (fun c => negb (existsb (Ascii.eqb c) r)) k.

End GoString.
Export GoString.

(** ** Errors *)

(** A value of Go's interface [error]: its dynamic type and its message.
    [errorString] is the type built by [errors.New] and [fmt.Errorf],
    [UnmarshalTypeError] is [*json.UnmarshalTypeError], and [foreignError]
    stands for every other dynamic type (named by its first field), such as
    [*url.Error], [*json.SyntaxError] or the errors of the transport. *)
Inductive error : Type :=
  | errorString (s : gostring)
  | UnmarshalTypeError (s : gostring)
  | foreignError (dyn : gostring) (s : gostring).

(** The method [Error()]. *)
Definition Error (e : error) : gostring :=
  match e with
  | errorString s => s
  | UnmarshalTypeError s => s
  | foreignError _ s => s
  end.

(** [errors.New]. *)
Definition errors_New (s : gostring) : error := errorString s.

(** The second result of the type assertion of [err] to
    [*json.UnmarshalTypeError]. *)
Definition isUnmarshalTypeError (e : error) : bool :=
  match e with
  | UnmarshalTypeError _ => true
  | _ => false
  end.

(** ** Data of the pipeline *)

(** [StatusResponse]: fields that may be present in any API response. *)
Record StatusResponse : Type := mkStatusResponse {
  Status : gostring;
  ErrorField : gostring
}.

(** [RateLimit]: [Limit] and [Remaining] are [int], [Period] and [Reset] are
    [time.Duration]. *)
Record RateLimit : Type := mkRateLimit {
  Limit : Z;
  Period : Z;
  Remaining : Z;
  Reset : Z
}.

(** [ResponseMetadata]. *)
Record ResponseMetadata : Type := mkResponseMetadata {
  RateLimitOf : RateLimit
}.

(** [http.Header] and [url.Values] are both [map[string][]string]. *)
Abbreviation Header := (gmap gostring (list gostring)).
Abbreviation Values := (gmap gostring (list gostring)).

(** The body of a response as [ioutil.ReadAll] sees it: the bytes read and
    the I/O error that ended the reading, if any. *)
Record Body : Type := mkBody {
  body_bytes : gostring;
  body_err : option error
}.

(** [http.Response], the fields the pipeline reads. *)
Record Response : Type := mkResponse {
  StatusCode : Z;
  StatusLine : gostring;
  RespHeader : Header;
  RespBody : Body
}.

(** [context.Context] as the retry loop observes it: whether the context is
    done when the [n]-th back-off wait is about to start, and whether it
    becomes done during that wait. *)
Record Context : Type := mkContext {
  done_before_wait : nat -> bool;
  done_during_wait : nat -> bool
}.

(** [context.Background()]: it is never done. *)
Definition Background : Context :=
  {| done_before_wait := fun _ => false; done_during_wait := fun _ => false |}.

(** [http.Request], the fields the pipeline writes. *)
Record Request : Type := mkRequest {
  req_method : gostring;
  req_url : gostring;
  req_body : option gostring;
  req_header : Header;
  req_ctx : Context
}.

(** What [HttpClient.Do] returns: an error (with the response that may
    accompany it), or a response and no error. *)
Inductive Outcome : Type :=
  | Failed (resp : option Response) (err : error)
  | Answered (resp : Response).

(** [backoff.ExponentialBackOff], with durations in nanoseconds and the two
    factors in thousandths. *)
Record ExponentialBackOff : Type := mkExponentialBackOff {
  InitialInterval : Z;
  RandomizationFactor : Z;
  Multiplier : Z;
  MaxInterval : Z;
  MaxElapsedTime : Z
}.

Definition Millisecond : Z := 1000000.
Definition Second : Z := 1000 * Millisecond.
Definition Minute : Z := 60 * Second.

(** [backoff.NewExponentialBackOff()], with the defaults the library
    declares. *)
Definition NewExponentialBackOff : ExponentialBackOff :=
  {| InitialInterval := 500 * Millisecond;
     RandomizationFactor := 500;
     Multiplier := 1500;
     MaxInterval := 60 * Second;
     MaxElapsedTime := 15 * Minute |}.

(** [expBackOff.MaxElapsedTime = d]. *)
Definition set_MaxElapsedTime (d : Z) (b : ExponentialBackOff) : ExponentialBackOff :=
  {| InitialInterval := InitialInterval b;
     RandomizationFactor := RandomizationFactor b;
     Multiplier := Multiplier b;
     MaxInterval := MaxInterval b;
     MaxElapsedTime := d |}.

(** ** The libraries the pipeline is linked with *)

(** The functions whose bodies lie outside the repository and are not
    written out here.  Every theorem holds for every such library. *)
Class GoLib : Type := mkGoLib {
  (** [float64], [strconv.ParseFloat(s, 64)] ([None] when it returns an
      error; it does for the empty string) and the conversion
      [time.Duration(seconds * 1e9)]. *)
  float64 : Type;
  strconv_ParseFloat : gostring -> option float64;
  strconv_ParseFloat_empty : strconv_ParseFloat [] = None;
  duration_of_seconds : float64 -> Z;
  (** [*url.URL], [url.Parse], [u.Query()], [q.Encode()] and [u.String()]
      once [u.RawQuery] has been set. *)
  URL : Type;
  url_Parse : gostring -> URL + error;
  url_Query : URL -> Values;
  values_Encode : Values -> gostring;
  url_String : URL -> gostring -> gostring;
  (** The payload of a request and [json.Marshal]. *)
  Payload : Type;
  json_Marshal : Payload -> gostring * option error;
  (** The error of [http.NewRequest(method, url, body)], if any. *)
  http_NewRequest_err : gostring -> gostring -> option error;
  (** [json.Unmarshal(body, &common)] on a zero [StatusResponse]: the value
      left in [common] and the error. *)
  json_Unmarshal_status : gostring -> StatusResponse * option error;
  (** The target of a response and [json.Unmarshal(body, &out)]: the value
      left in the target and the error. *)
  Target : Type;
  json_Unmarshal_out : gostring -> Target -> Target * option error;
  (** A caller-supplied implementation of [backoff.BackOff]. *)
  CustomBackOff : Type;
  custom_NextBackOff : CustomBackOff -> nat -> Z;
  (** [NextBackOff()] of an exponential back-off on its [n]-th call after
      [Reset()]; it depends on the clock and on a random source. *)
  exponential_NextBackOff : ExponentialBackOff -> nat -> Z
}.

(** A value of the interface [backoff.BackOff]. *)
Inductive BackOff `{GoLib} : Type :=
  | Custom (b : CustomBackOff)
  | Exponential (b : ExponentialBackOff).

(** [backoff.Stop]. *)
Definition Stop : Z := -1.

(** [b.NextBackOff()] on its [n]-th call after [b.Reset()]. *)
Definition NextBackOff `{GoLib} (b : BackOff) (n : nat) : Z :=
  match b with
  | Custom c => custom_NextBackOff c n
  | Exponential e => exponential_NextBackOff e n
  end.

(** [Client].  [HttpClient n req] is what [HttpClient.Do(req)] returns when
    [n] requests have been sent before; [RetryNotify] tells whether a
    notification callback is set. *)
Record Client `{GoLib} : Type := mkClient {
  apiKey : gostring;
  appKey : gostring;
  baseUrl : gostring;
  HttpClient : nat -> Request -> Outcome;
  RetryTimeout : Z;
  BackOffOf : option BackOff;
  RetryNotify : bool
}.

(** What the pipeline has done to the outside so far: the number of requests
    handed to the transport, and the notifications given to the
    [RetryNotify] callback. *)
Record World : Type := mkWorld {
  sent : nat;
  notified : list (error * Z)
}.

(** ** ratelimit.go *)

(** The bytes [textproto] accepts in a header field name. *)
Definition validHeaderFieldByte (c : ascii) : bool :=
  let n := nat_of_ascii c in
  ((48 <=? n) && (n <=? 57) || (65 <=? n) && (n <=? 90) ||
   (97 <=? n) && (n <=? 122))%nat ||
  existsb (Ascii.eqb c) (gs "!#$%&'*+-.^_`|~").

Definition upper_byte (c : ascii) : ascii :=
  let n := nat_of_ascii c in
  if ((97 <=? n) && (n <=? 122))%nat then ascii_of_nat (n - 32) else c.

Definition lower_byte (c : ascii) : ascii :=
  let n := nat_of_ascii c in
  if ((65 <=? n) && (n <=? 90))%nat then ascii_of_nat (n + 32) else c.

Fixpoint canonical_loop (upper : bool) (s : gostring) : gostring :=
  match s with
  | [] => []
  | c :: s' =>
      let c' := if upper then upper_byte c else lower_byte c in
      c' :: canonical_loop (Ascii.eqb c' "-") s'
  end.

(** [textproto.CanonicalMIMEHeaderKey]: the first letter and every letter
    after a hyphen in upper case, the others in lower case; a key with a
    byte that a field name cannot hold is returned as it is. *)
Definition CanonicalMIMEHeaderKey (s : gostring) : gostring :=
  if forallb validHeaderFieldByte s then canonical_loop true s else s.

(** [header.Get(key)]: the first value of the canonical key, or the empty
    string. *)
Definition Header_Get (header : Header) (key : gostring) : gostring :=
  match header !! CanonicalMIMEHeaderKey key with
  | Some (v :: _) => v
  | _ => []
  end.

(** [header.Add(key, value)] and [values.Add(key, value)]. *)
Definition Header_Add (header : Header) (key value : gostring) : Header :=
  let k := CanonicalMIMEHeaderKey key in
  <[k := default [] (header !! k) ++ [value]]> header.

Definition Values_Add (q : Values) (key value : gostring) : Values :=
  <[key := default [] (q !! key) ++ [value]]> q.

Definition digit_of_byte (c : ascii) : option Z :=
  let n := nat_of_ascii c in
  if ((48 <=? n) && (n <=? 57))%nat then Some (Z.of_nat n - 48) else None.

Fixpoint parse_digits (s : gostring) (acc : Z) : option Z :=
  match s with
  | [] => Some acc
  | c :: s' =>
      match digit_of_byte c with
      | Some d => parse_digits s' (acc * 10 + d)
      | None => None
      end
  end.

(** [strconv.ParseInt(s, 10, 64)]; [None] stands for a non-nil error, which
    is a syntax error (empty string, no digit, a byte that is no decimal
    digit) or a range error (the value does not fit 64 bits). *)
Definition strconv_ParseInt (s : gostring) : option Z :=
  match s with
  | [] => None
  | c :: s' =>
      let neg := Ascii.eqb c "-" in
      let digits := if Ascii.eqb c "+" || neg then s' else s in
      match digits with
      | [] => None
      | _ :: _ =>
          match parse_digits digits 0 with
          | None => None
          | Some un =>
              let cutoff := 2 ^ 63 in
              if negb neg && (cutoff <=? un) then None
              else if neg && (cutoff <? un) then None
              else Some (if neg then - un else un)
          end
      end
  end.

(** [intFromHeader]; [int] has 64 bits, so [int(value)] is [value].  The
    warning written with [log.Printf] goes to the standard logger and is not
    part of the result. *)
Definition intFromHeader (header : Header) (key : gostring) : Z :=
  match strconv_ParseInt (Header_Get header key) with
  | None => 0
  | Some value => value
  end.

(** [durationFromHeader]. *)
Definition durationFromHeader `{GoLib} (header : Header) (key : gostring) : Z :=
  match strconv_ParseFloat (Header_Get header key) with
  | None => 0
  | Some seconds => duration_of_seconds seconds
  end.

(** [newRateLimitFromHeaders]. *)
Definition newRateLimitFromHeaders `{GoLib} (header : Header) : RateLimit :=
  {| Limit := intFromHeader header (gs "X-RateLimit-Limit");
     Period := durationFromHeader header (gs "X-RateLimit-Period");
     Remaining := intFromHeader header (gs "X-RateLimit-Remaining");
     Reset := durationFromHeader header (gs "X-RateLimit-Reset") |}.

(** The header [key] is missing: the map has no value for it. *)
Definition missing (header : Header) (key : gostring) : Prop :=
  header !! CanonicalMIMEHeaderKey key = None \/
  header !! CanonicalMIMEHeaderKey key = Some [].

(** The header [key] gives no integer: it is missing or [strconv.ParseInt]
    refuses its value. *)
Definition no_integer (header : Header) (key : gostring) : Prop :=
  missing header key \/ strconv_ParseInt (Header_Get header key) = None.

(** The header [key] gives no duration: it is missing or
    [strconv.ParseFloat] refuses its value. *)
Definition no_duration `{GoLib} (header : Header) (key : gostring) : Prop :=
  missing header key \/ strconv_ParseFloat (Header_Get header key) = None.

(** The zero value [RateLimit{}]. *)
Definition zero_RateLimit : RateLimit :=
  {| Limit := 0; Period := 0; Remaining := 0; Reset := 0 |}.

(** A header value that is not numeric: it holds no decimal digit. *)
Definition non_numeric (value : gostring) : bool :=
  forallb (fun c => match digit_of_byte c with
                    | Some _ => false
                    | None => true
                    end) value.

(** ** request.go *)

Section Request.
Context `{lib : GoLib}.

(** [uriForAPI]: the request URI for an API path such as [/v1/events]. *)
Definition uriForAPI (client : Client) (api : gostring) : gostring + error :=
  match url_Parse (baseUrl client ++ gs "/api" ++ api) with
  | inr err => inr err
  | inl apiBase =>
      let q := url_Query apiBase in
      let q := Values_Add q (gs "api_key") (apiKey client) in
      let q := Values_Add q (gs "application_key") (appKey client) in
      inl (url_String apiBase (values_Encode q))
  end.

(** The fixed text that takes the place of a key. *)
Definition placeholder : gostring := gs "redacted".

(** The body of the [for] loop of [redactKeysFromError]. *)
Definition redact_key (errMessage key : gostring) : gostring :=
  if (0 <? length key)%nat
  then Replace errMessage key placeholder
  else errMessage.

(** A key that the redaction can remove for good: it is not empty and
    cannot overlap the placeholder. *)
Definition redactable (key : gostring) : bool :=
  (0 <? length key)%nat && no_overlap key placeholder.

(** [redactKeysFromError]: removes the keys from the message of an error. *)
Definition redactKeysFromError (err : option error) (keys : list gostring)
  : option error :=
  match err with
  | None => None
  | Some e =>
      let errMessage := fold_left redact_key keys (Error e) in
      if decide (errMessage = Error e)
      then Some e
      else Some (errors_New errMessage)
  end.

(** [encodeRequestBody]: the reader over the encoded body, and the error. *)
Definition encodeRequestBody (body : option Payload)
  : option gostring * option error :=
  match body with
  | None => (None, None)
  | Some p => let '(raw, err) := json_Marshal p in (Some raw, err)
  end.

(** [newJSONRequest]. *)
Definition newJSONRequest (method url : gostring) (reqBody : option Payload)
  : Request + error :=
  let '(body, err) := encodeRequestBody reqBody in
  match err with
  | Some e => inr e
  | None =>
      match http_NewRequest_err method url with
      | Some e => inr e
      | None =>
          let header : Header :=
            match body with
            | Some _ => Header_Add ∅ (gs "Content-Type") (gs "application/json")
            | None => ∅
            end in
          inl {| req_method := method; req_url := url; req_body := body;
                 req_header := header; req_ctx := Background |}
      end
  end.

(** [req.WithContext(ctx)]. *)
Definition WithContext (req : Request) (ctx : Context) : Request :=
  {| req_method := req_method req; req_url := req_url req;
     req_body := req_body req; req_header := req_header req;
     req_ctx := ctx |}.

(** The statement [if ctx != nil { req = req.WithContext(ctx) }]. *)
Definition attach (ctx : option Context) (req : Request) : Request :=
  match ctx with
  | Some ctx => WithContext req ctx
  | None => req
  end.

(** A value of the function type [doer]: the two functions
    [doerForMethod] can return. *)
Inductive doer : Type :=
  | HttpClient_Do
  | doRequestWithRetries_doer.

(** [doerForMethod]. *)
Definition doerForMethod (method : gostring) : doer :=
  if bool_decide (method = gs "POST") || bool_decide (method = gs "PUT")
  then HttpClient_Do
  else doRequestWithRetries_doer.

(** [client.HttpClient.Do(req)]: one request handed to the transport. *)
Definition Do (client : Client) (req : Request) (w : World) : World * Outcome :=
  ({| sent := S (sent w); notified := notified w |},
   HttpClient client (sent w) req).

(** The two values [resp, err] that [HttpClient.Do] returns. *)
Definition returned (o : Outcome) : option Response * option error :=
  match o with
  | Failed resp err => (resp, Some err)
  | Answered resp => (Some resp, None)
  end.

(** The last three cases of the [switch] of [operation]: the error returned
    for a response that came without a transport error. *)
Definition status_error (resp : Response) : option error :=
  if (200 <=? StatusCode resp) && (StatusCode resp <? 300) then None
  else if (400 <=? StatusCode resp) && (StatusCode resp <? 500) then None
  else Some (errors_New
               (gs "Received HTTP status code " ++ Itoa (StatusCode resp))).

(** The error [operation] returns for what the transport returned. *)
Definition classify (o : Outcome) : option error :=
  match o with
  | Failed _ err => Some err
  | Answered resp => status_error resp
  end.

(** The closure [operation] of [doRequestWithRetries]; its state is the
    world and the captured variable [resp]. *)
Definition operation (client : Client) (req : Request)
    (s : World * option Response) : (World * option Response) * option error :=
  let '(w', o) := Do client req (fst s) in
  ((w', fst (returned o)), classify o).

(** [getBackOff]. *)
Definition getBackOff (client : Client) : BackOff :=
  match BackOffOf client with
  | Some b => b
  | None =>
      let expBackOff := NewExponentialBackOff in
      Exponential
        (if negb (RetryTimeout client =? -1)
         then set_MaxElapsedTime (RetryTimeout client) expBackOff
         else set_MaxElapsedTime (60 * Second) expBackOff)
  end.

(** [NextBackOff()] of [backoff.WithContext(b, ctx)]: [Stop] once the
    context is done. *)
Definition NextBackOff_ctx (b : BackOff) (ctx : Context) (n : nat) : Z :=
  if done_before_wait ctx n then Stop else NextBackOff b n.

(** The world and the captured response after a retry has been notified. *)
Definition notify (client : Client) (s : World * option Response)
    (e : error) (next : Z) : World * option Response :=
  (if RetryNotify client
   then {| sent := sent (fst s); notified := notified (fst s) ++ [(e, next)] |}
   else fst s,
   snd s).

(** The loop of [backoff.RetryNotify(operation, b, notify)] from its [n]-th
    iteration on: [operation] is run until it returns no error, the policy
    answers [Stop], or the context is done during a wait; each retry is
    notified.  [None] when [fuel] iterations do not end the loop. *)
Fixpoint RetryNotify_loop (fuel : nat) (client : Client) (req : Request)
    (b : BackOff) (n : nat) (s : World * option Response)
  : option ((World * option Response) * option error) :=
  match fuel with
  | O => None
  | S fuel' =>
      let '(s', err) := operation client req s in
      match err with
      | None => Some (s', None)
      | Some e =>
          let next := NextBackOff_ctx b (req_ctx req) n in
          if next =? Stop then Some (s', Some e)
          else
            let s'' := notify client s' e next in
            if done_during_wait (req_ctx req) n
            then Some (s'', Some e)
            else RetryNotify_loop fuel' client req b (S n) s''
      end
  end.

(** [doRequestWithRetries]: the request is sent until the back-off policy
    gives up or a response that is not to be retried arrives.  The result
    carries the last value of the captured [resp]. *)
Definition doRequestWithRetries (fuel : nat) (client : Client) (req : Request)
    (w : World) : option (World * (option Response * option error)) :=
  match RetryNotify_loop fuel client req (getBackOff client) 0 (w, None) with
  | None => None
  | Some ((w', resp), err) => Some (w', (resp, err))
  end.

(** The call [doerForMethod(client, method)(req)]. *)
Definition call_doer (fuel : nat) (d : doer) (client : Client) (req : Request)
    (w : World) : option (World * (option Response * option error)) :=
  match d with
  | HttpClient_Do =>
      let '(w', o) := Do client req w in Some (w', returned o)
  | doRequestWithRetries_doer => doRequestWithRetries fuel client req w
  end.

(** [ioutil.ReadAll(resp.Body)]. *)
Definition ReadAll (b : Body) : gostring * option error :=
  (body_bytes b, body_err b).

(** The body that is decoded: an empty body is read as an empty object. *)
Definition envelope_body (body : gostring) : gostring :=
  if (length body =? 0)%nat then gs "{}" else body.

(** [handleResponse]: reports the errors it finds, otherwise unmarshals the
    body into [out].  The first result is the target after the call. *)
Definition handleResponse (resp : Response) (out : option Target)
  : option Target * option error :=
  let '(body, err) := ReadAll (RespBody resp) in
  match err with
  | Some e => (out, Some e)
  | None =>
      if (StatusCode resp <? 200) || (299 <? StatusCode resp)
      then (out, Some (errors_New
              (gs "API error " ++ StatusLine resp ++ gs ": " ++ body)))
      else
        let body := envelope_body body in
        let '(common, err) := json_Unmarshal_status body in
        let fatal :=
          match err with
          | Some e => if isUnmarshalTypeError e then None else Some e
          | None => None
          end in
        match fatal with
        | Some e => (out, Some e)
        | None =>
            if bool_decide (Status common = gs "error")
            then (out, Some (errors_New
                    (gs "API returned error: " ++ ErrorField common)))
            else
              match out with
              | None => (None, None)
              | Some t =>
                  let '(t', err) := json_Unmarshal_out body t in
                  (Some t', err)
              end
        end
  end.

(** The zero value [ResponseMetadata{}]. *)
Definition zero_metadata : ResponseMetadata :=
  {| RateLimitOf := zero_RateLimit |}.

(** The result of [doRequestWithContext]: the world and the target after
    the call, and the two values returned. *)
Record Result : Type := mkResult {
  res_world : World;
  res_out : option Target;
  res_md : ResponseMetadata;
  res_err : option error
}.

(** [doRequestWithContext]; [None] when the retry loop does not end within
    [fuel] iterations.  A doer that returned neither a response nor an error
    would make [handleResponse] dereference nil; neither doer does, and the
    case is given no result. *)
Definition doRequestWithContext (fuel : nat) (client : Client)
    (ctx : option Context) (method api : gostring)
    (reqBody : option Payload) (out : option Target) (w : World)
  : option Result :=
  let md := zero_metadata in
  match uriForAPI client api with
  | inr err => Some (mkResult w out md (Some err))
  | inl url =>
      match newJSONRequest method url reqBody with
      | inr err =>
          Some (mkResult w out md
                  (redactKeysFromError (Some err)
                     [apiKey client; appKey client]))
      | inl req =>
          let req := attach ctx req in
          match call_doer fuel (doerForMethod method) client req w with
          | None => None
          | Some (w', (_, Some err)) =>
              Some (mkResult w' out md
                      (redactKeysFromError (Some err)
                         [apiKey client; appKey client]))
          | Some (_, (None, None)) => None
          | Some (w', (Some resp, None)) =>
              let '(out', err) := handleResponse resp out in
              match err with
              | Some e =>
                  Some (mkResult w' out' md
                          (redactKeysFromError (Some e)
                             [apiKey client; appKey client]))
              | None =>
                  Some (mkResult w' out'
                          {| RateLimitOf :=
                               newRateLimitFromHeaders (RespHeader resp) |}
                          None)
              end
          end
      end
  end.

(** [doJsonRequest]: a method on a URI that returns some JSON result. *)
Definition doJsonRequest (fuel : nat) (client : Client) (method api : gostring)
    (reqBody : option Payload) (out : option Target) (w : World)
  : option (World * option Target * option error) :=
  match doRequestWithContext fuel client None method api reqBody out w with
  | None => None
  | Some r => Some (res_world r, res_out r, res_err r)
  end.

(** The phases in which [doRequestWithContext] ends once the URL has been
    built: the error handed to the Error Redactor, or the response that was
    handled without error. *)
Inductive Ended (fuel : nat) (client : Client) (ctx : option Context)
    (method url : gostring) (reqBody : option Payload) (out : option Target)
    (w : World) : Result -> option error -> Prop :=
  | Ended_build e :
      newJSONRequest method url reqBody = inr e ->
      Ended fuel client ctx method url reqBody out w
        (mkResult w out zero_metadata
           (redactKeysFromError (Some e) [apiKey client; appKey client]))
        (Some e)
  | Ended_transport req w' resp e :
      newJSONRequest method url reqBody = inl req ->
      call_doer fuel (doerForMethod method) client (attach ctx req) w
        = Some (w', (resp, Some e)) ->
      Ended fuel client ctx method url reqBody out w
        (mkResult w' out zero_metadata
           (redactKeysFromError (Some e) [apiKey client; appKey client]))
        (Some e)
  | Ended_handler req w' resp out' e :
      newJSONRequest method url reqBody = inl req ->
      call_doer fuel (doerForMethod method) client (attach ctx req) w
        = Some (w', (Some resp, None)) ->
      handleResponse resp out = (out', Some e) ->
      Ended fuel client ctx method url reqBody out w
        (mkResult w' out' zero_metadata
           (redactKeysFromError (Some e) [apiKey client; appKey client]))
        (Some e)
  | Ended_success req w' resp out' :
      newJSONRequest method url reqBody = inl req ->
      call_doer fuel (doerForMethod method) client (attach ctx req) w
        = Some (w', (Some resp, None)) ->
      handleResponse resp out = (out', None) ->
      Ended fuel client ctx method url reqBody out w
        (mkResult w' out'
           {| RateLimitOf := newRateLimitFromHeaders (RespHeader resp) |}
           None)
        None.

End Request.

(** ** The client *)

Section ClientFile.
Context `{lib : GoLib}.

(** [valid]: the struct that responses of the validation endpoint are
    unmarshalled into. *)
Record valid : Type := mkValid {
  Errors : list gostring;
  IsValid : bool
}.

(** [NewClient(apiKey, appKey)]; [DATADOG_HOST] is what
    [os.Getenv("DATADOG_HOST")] returns and [DefaultClient] is
    [http.DefaultClient]. *)
Definition NewClient (DATADOG_HOST : gostring)
    (DefaultClient : nat -> Request -> Outcome) (api app : gostring) : Client :=
  let base := DATADOG_HOST in
  let base :=
    if bool_decide (base = []) then gs "https://app.datadoghq.com" else base in
  {| apiKey := api; appKey := app; baseUrl := base;
     HttpClient := DefaultClient; RetryTimeout := -1;
     BackOffOf := None; RetryNotify := false |}.

(** [SetKeys]: changes the value of [apiKey] and [appKey]. *)
Definition SetKeys (c : Client) (api app : gostring) : Client :=
  {| apiKey := api; appKey := app; baseUrl := baseUrl c;
     HttpClient := HttpClient c; RetryTimeout := RetryTimeout c;
     BackOffOf := BackOffOf c; RetryNotify := RetryNotify c |}.

(** [SetBaseUrl]: changes the value of [baseUrl]. *)
Definition SetBaseUrl (c : Client) (base : gostring) : Client :=
  {| apiKey := apiKey c; appKey := appKey c; baseUrl := base;
     HttpClient := HttpClient c; RetryTimeout := RetryTimeout c;
     BackOffOf := BackOffOf c; RetryNotify := RetryNotify c |}.

(** [GetBaseUrl]. *)
Definition GetBaseUrl (c : Client) : gostring := baseUrl c.

(** [Validate]: checks whether the keys are valid.  [unmarshal_valid body]
    is the value [json.Unmarshal(body, &out)] leaves in a zero [valid], and
    its error.  The result is the world after the call and the two values
    returned; [None] when the retry loop does not end within [fuel]
    iterations. *)
Definition Validate (unmarshal_valid : gostring -> valid * option error)
    (fuel : nat) (client : Client) (w : World)
  : option (World * (bool * option error)) :=
  match uriForAPI client (gs "/v1/validate") with
  | inr err => Some (w, (false, Some err))
  | inl uri =>
      match http_NewRequest_err (gs "GET") uri with
      | Some err => Some (w, (false, Some err))
      | None =>
          let req :=
            {| req_method := gs "GET"; req_url := uri; req_body := None;
               req_header := ∅; req_ctx := Background |} in
          match doRequestWithRetries fuel client req w with
          | None => None
          | Some (w', (_, Some err)) => Some (w', (false, Some err))
          | Some (_, (None, None)) => None
          | Some (w', (Some resp, None)) =>
              let '(body, err) := ReadAll (RespBody resp) in
              match err with
              | Some e => Some (w', (false, Some e))
              | None =>
                  let '(out, err) := unmarshal_valid body in
                  match err with
                  | Some e => Some (w', (false, Some e))
                  | None => Some (w', (IsValid out, None))
                  end
              end
          end
      end
  end.

End ClientFile.

(** ** The method classes of the specification *)

(** What a request of the wire contract does to the remote resource. *)
Inductive Semantics : Type := Read | Create | Update | Delete.

(** The verbs of the wire contract, [GET|POST|PUT|DELETE], with their
    semantics; a string that is no verb of the contract has none. *)
Definition method_semantics (method : gostring) : option Semantics :=
  if bool_decide (method = gs "GET") then Some Read
  else if bool_decide (method = gs "POST") then Some Create
  else if bool_decide (method = gs "PUT") then Some Update
  else if bool_decide (method = gs "DELETE") then Some Delete
  else None.

(** The specification's mutating methods: those with create or update
    semantics.  This definition follows the specification, not the code. *)
Definition mutating (method : gostring) : bool :=
  match method_semantics method with
  | Some Create | Some Update => true
  | _ => false
  end.

(** ** A small library for worked examples *)

Module Sample.

(** JSON text written with apostrophes for the double quotes. *)
Definition json (s : string) : gostring :=
  map (fun c => if Ascii.eqb c "'" then ascii_of_nat 34 else c) (gs s).

Definition quote (s : gostring) : gostring :=
  ascii_of_nat 34 :: s ++ [ascii_of_nat 34].

Definition ishex (c : ascii) : bool :=
  existsb (Ascii.eqb c) (gs "0123456789abcdefABCDEF").

(** The first [%] of a path that is not followed by two hexadecimal digits,
    with the two bytes after it; the path ends at the first [?] or [#]. *)
Fixpoint bad_escape (s : gostring) : option gostring :=
  match s with
  | [] => None
  | c :: s' =>
      if Ascii.eqb c "?" || Ascii.eqb c "#" then None
      else if Ascii.eqb c "%" then
        match s' with
        | a :: b :: _ =>
            if ishex a && ishex b then bad_escape s' else Some (take 3 s)
        | _ => Some (take 3 s)
        end
      else bad_escape s'
  end.

(** [url.Parse] on the inputs of the examples, which are printable and hold
    no quote: a URL with an invalid escape in its path is refused with a
    [*url.Error] that quotes the URL and the escape. *)
Definition parse_url (raw : gostring) : gostring + error :=
  match bad_escape raw with
  | Some esc =>
      inr (foreignError (gs "*url.Error")
             (gs "parse " ++ quote raw ++ gs ": invalid URL escape " ++
              quote esc))
  | None => inl raw
  end.

Definition encode_pair (q : Values) (key : string) : gostring :=
  concat (map (fun v => gs "&" ++ gs key ++ gs "=" ++ v)
            (default [] (q !! gs key))).

(** [q.Encode()] for a query that holds the two keys of the pipeline only;
    the keys come in alphabetic order. *)
Definition encode_values (q : Values) : gostring :=
  drop 1 (encode_pair q "api_key" ++ encode_pair q "application_key").

Definition new_request_err (method url : gostring) : option error :=
  if forallb validHeaderFieldByte method then None
  else Some (errorString (gs "net/http: invalid method " ++ method)).

(** [json.Unmarshal] into a [StatusResponse] on the bodies of the examples:
    an object with a string [status] and a string [error], an object whose
    [error] is a number (the field is skipped, the rest is filled, and the
    type error is returned), an array (a type error), any other object, and
    text that is no JSON. *)
Definition unmarshal_status (body : gostring)
  : StatusResponse * option error :=
  if bool_decide (body = json "{'status':'error','error':'boom'}")
  then ({| Status := gs "error"; ErrorField := gs "boom" |}, None)
  else if bool_decide (body = json "{'status':'error','error':5}")
  then ({| Status := gs "error"; ErrorField := [] |},
        Some (UnmarshalTypeError
                (gs "json: cannot unmarshal number into Go struct field StatusResponse.error of type string")))
  else if HasPrefix body (gs "[")
  then ({| Status := []; ErrorField := [] |},
        Some (UnmarshalTypeError
                (gs "json: cannot unmarshal array into Go value of type datadog.StatusResponse")))
  else if HasPrefix body (gs "{")
  then ({| Status := []; ErrorField := [] |}, None)
  else ({| Status := []; ErrorField := [] |},
        Some (foreignError (gs "*json.SyntaxError")
                (gs "invalid character looking for beginning of value"))).

(** A target that keeps the text of a JSON object and refuses anything
    else. *)
Definition unmarshal_out (body target : gostring)
  : gostring * option error :=
  if HasPrefix body (gs "{") then (body, None)
  else (target,
        Some (UnmarshalTypeError
                (gs "json: cannot unmarshal array into Go value of type datadog.valid"))).

(** An exponential back-off without clock or jitter: the initial interval,
    as long as the waits so far stay below the maximum elapsed time. *)
Definition exponential_next (b : ExponentialBackOff) (n : nat) : Z :=
  if Z.of_nat n * InitialInterval b <? MaxElapsedTime b
  then InitialInterval b else Stop.

(** Whole seconds stand for [float64]; a caller-supplied back-off is the
    list of the waits it grants. *)
#[export] Instance lib : GoLib :=
  {| float64 := Z;
     strconv_ParseFloat := strconv_ParseInt;
     strconv_ParseFloat_empty := eq_refl;
     duration_of_seconds := fun s => s * Second;
     URL := gostring;
     url_Parse := parse_url;
     url_Query := fun _ => ∅;
     values_Encode := encode_values;
     url_String := fun u q => u ++ gs "?" ++ q;
     Payload := gostring;
     json_Marshal := fun p => (p, None);
     http_NewRequest_err := new_request_err;
     json_Unmarshal_status := unmarshal_status;
     Target := gostring;
     json_Unmarshal_out := unmarshal_out;
     CustomBackOff := list Z;
     custom_NextBackOff := fun l n => nth n l Stop;
     exponential_NextBackOff := exponential_next |}.

(** A [float64] as far as the examples need it: a whole number of seconds,
    an infinity, or a NaN. *)
Inductive float : Type :=
  | Finite (seconds : Z)
  | Inf (negative : bool)
  | NaN.

(** [strconv.ParseFloat(s, 64)] on the inputs of the examples: whatever
    the case of the letters, [inf] and [infinity] with an optional sign and
    [nan] are accepted without error, as are whole numbers in decimal. *)
Definition parse_float (s : gostring) : option float :=
  let l := map lower_byte s in
  if bool_decide (l = gs "nan") then Some NaN
  else if bool_decide (l = gs "inf") || bool_decide (l = gs "+inf")
          || bool_decide (l = gs "infinity")
          || bool_decide (l = gs "+infinity")
  then Some (Inf false)
  else if bool_decide (l = gs "-inf") || bool_decide (l = gs "-infinity")
  then Some (Inf true)
  else option_map Finite (strconv_ParseInt s).

(** [time.Duration(seconds * 1e9)]: the conversion to [int64] of a value
    that [int64] cannot hold depends on the implementation; the value here
    is the one of the amd64 compiler, the least [int64]. *)
Definition float_duration (f : float) : Z :=
  match f with
  | Finite seconds => seconds * Second
  | Inf _ | NaN => - 2 ^ 63
  end.

(** The library above with this [float64]. *)
Definition lib_float : GoLib :=
  {| float64 := float;
     strconv_ParseFloat := parse_float;
     strconv_ParseFloat_empty := eq_refl;
     duration_of_seconds := float_duration;
     URL := gostring;
     url_Parse := parse_url;
     url_Query := fun _ => ∅;
     values_Encode := encode_values;
     url_String := fun u q => u ++ gs "?" ++ q;
     Payload := gostring;
     json_Marshal := fun p => (p, None);
     http_NewRequest_err := new_request_err;
     json_Unmarshal_status := unmarshal_status;
     Target := gostring;
     json_Unmarshal_out := unmarshal_out;
     CustomBackOff := list Z;
     custom_NextBackOff := fun l n => nth n l Stop;
     exponential_NextBackOff := exponential_next |}.

(** A transport that refuses every connection; its error names the method
    and the URL of the request. *)
Definition refusing (n : nat) (req : Request) : Outcome :=
  Failed None
    (foreignError (gs "*url.Error")
       (req_method req ++ gs " " ++ req_url req ++
        gs ": dial tcp: connection refused")).

(** A transport that answers every request with the given response. *)
Definition answering (resp : Response) (n : nat) (req : Request) : Outcome :=
  Answered resp.

Definition response (code : Z) (status : string) (header : Header)
    (body : gostring) : Response :=
  {| StatusCode := code; StatusLine := gs status; RespHeader := header;
     RespBody := {| body_bytes := body; body_err := None |} |}.

(** [NewClient(apiKey, appKey)] with the given transport. *)
Definition client (api app : string) (transport : nat -> Request -> Outcome)
  : Client :=
  {| apiKey := gs api; appKey := gs app;
     baseUrl := gs "https://app.datadoghq.com";
     HttpClient := transport;
     RetryTimeout := -1;
     BackOffOf := None;
     RetryNotify := false |}.

Definition world0 : World := {| sent := 0; notified := [] |}.

(** A request for [/v1/x] without body, as [newJSONRequest] builds it. *)
Definition request (method : string) : Request :=
  {| req_method := gs method;
     req_url := gs "https://app.datadoghq.com/api/v1/x?api_key=k3y&application_key=s3cr3t";
     req_body := None; req_header := ∅; req_ctx := Background |}.


(** A client with a caller-supplied back-off that grants the given waits,
    and with or without a notification callback. *)
Definition retrying_client (waits : list Z) (callback : bool)
    (transport : nat -> Request -> Outcome) : Client :=
  {| apiKey := gs "k3y"; appKey := gs "s3cr3t";
     baseUrl := gs "https://app.datadoghq.com";
     HttpClient := transport;
     RetryTimeout := -1;
     BackOffOf := Some (Custom waits);
     RetryNotify := callback |}.

(** A context that is done during the first back-off wait. *)
Definition cancelled : Context :=
  {| done_before_wait := fun _ => false;
     done_during_wait := fun n => (n =? 0)%nat |}.

(** [json.Unmarshal] into a [valid] on the bodies of the examples. *)
Definition unmarshal_valid (body : gostring) : valid * option error :=
  if bool_decide (body = json "{'valid':true}")
  then ({| Errors := []; IsValid := true |}, None)
  else if HasPrefix body (gs "{")
  then ({| Errors := []; IsValid := false |}, None)
  else ({| Errors := []; IsValid := false |},
        Some (foreignError (gs "*json.SyntaxError")
                (gs "invalid character looking for beginning of value"))).

End Sample.

(** * Properties *)

(** ** Strings *)

Section Strings.
Implicit Types s sub old new k r u v : gostring.

Lemma HasPrefix_true s p : HasPrefix s p = true <-> exists t, s = p ++ t.
Proof.
  revert s; induction p as [|a p IH]; intros s; simpl.
  - split; [intros _; by exists s | done].
  - destruct s as [|b s].
    + split; [done | intros [t Ht]; discriminate].
    + destruct (Ascii.eqb a b) eqn:E.
      * apply Ascii.eqb_eq in E as ->. rewrite IH.
        split; intros [t Ht]; exists t; simpl in *; congruence.
      * apply Ascii.eqb_neq in E.
        split; [done | intros [t Ht]; simpl in Ht; congruence].
Qed.

Lemma Occurs_nil s : Occurs [] s.
Proof. by exists [], s. Qed.

Lemma Occurs_in_nil k : Occurs k [] -> k = [].
Proof.
  intros (pre & post & H). symmetry in H.
  apply app_eq_nil in H as [_ H]. by apply app_eq_nil in H as [? _].
Qed.

Lemma Occurs_cons k c s :
  Occurs k (c :: s) -> HasPrefix (c :: s) k = true \/ Occurs k s.
Proof.
  intros (pre & post & H). destruct pre as [|c' pre]; simpl in H.
  - left. apply HasPrefix_true. by exists post.
  - right. injection H as _ ->. by exists pre, post.
Qed.

Lemma Occurs_app_l k u v : Occurs k u -> Occurs k (u ++ v).
Proof.
  intros (pre & post & ->). exists pre, (post ++ v). by rewrite <- !app_assoc.
Qed.

Lemma Occurs_app_r k u v : Occurs k v -> Occurs k (u ++ v).
Proof.
  intros (pre & post & ->). exists (u ++ pre), post. by rewrite <- !app_assoc.
Qed.

Lemma Contains_true s sub : Contains s sub = true <-> Occurs sub s.
Proof.
  induction s as [|c s IH]; simpl.
  - rewrite orb_false_r, HasPrefix_true. split.
    + intros [t Ht]. symmetry in Ht. apply app_eq_nil in Ht as [-> _].
      apply Occurs_nil.
    + intros ->%Occurs_in_nil. by exists [].
  - rewrite orb_true_iff, IH. split.
    + intros [[t Ht]%HasPrefix_true | H].
      * exists [], t. by rewrite Ht.
      * by apply (Occurs_app_r sub [c]).
    + apply Occurs_cons.
Qed.

Lemma Contains_false s sub : Contains s sub = false <-> ~ Occurs sub s.
Proof. rewrite <- Contains_true. by destruct (Contains s sub). Qed.

End Strings.

(** ** The models of the library functions on sample inputs *)

Example Replace_every_instance :
  Replace (gs "red alert red") (gs "red") (gs "redacted")
  = gs "redacted alert redacted".
Proof. reflexivity. Qed.

Example Replace_leftmost_first :
  Replace (gs "aaa") (gs "aa") (gs "b") = gs "ba".
Proof. reflexivity. Qed.

Example Itoa_negative : Itoa (-503) = gs "-503".
Proof. reflexivity. Qed.

Example CanonicalMIMEHeaderKey_limit :
  CanonicalMIMEHeaderKey (gs "X-RateLimit-Limit") = gs "X-Ratelimit-Limit".
Proof. reflexivity. Qed.

Example ParseInt_decimal :
  strconv_ParseInt (gs "-12") = Some (-12) /\
  strconv_ParseInt (gs "+7") = Some 7 /\
  strconv_ParseInt (gs "-9223372036854775808") = Some (- 2 ^ 63).
Proof. repeat split. Qed.

Example ParseInt_refuses :
  strconv_ParseInt [] = None /\
  strconv_ParseInt (gs "+") = None /\
  strconv_ParseInt (gs "1.5") = None /\
  strconv_ParseInt (gs "12a") = None /\
  strconv_ParseInt (gs "9223372036854775808") = None.
Proof. repeat split. Qed.

(** ** Replacing a key by the placeholder *)

Section Replace.
Implicit Types s old new k r u v m : gostring.

Lemma Replaced_cons old new c s s' :
  HasPrefix (c :: s) old = false ->
  Replaced old new s s' -> Replaced old new (c :: s) (c :: s').
Proof.
  intros Hp H. destruct H as [s Hs | u t t' Hu Ht].
  - apply Replaced_none. intros [E | E]%Occurs_cons; [congruence | done].
  - apply (Replaced_hit old new (c :: u)); [|done].
    intros [E | E]%Occurs_cons; [|done].
    apply HasPrefix_true in E as [x Hx].
    assert (HasPrefix (c :: u ++ old ++ t) old = true); [|congruence].
    apply HasPrefix_true. exists (x ++ old ++ t).
    by rewrite (app_assoc old x), <- Hx.
Qed.

Lemma replace_loop_Replaced old new fuel s :
  old <> [] -> (length s <= fuel)%nat ->
  Replaced old new s (replace_loop fuel s old new).
Proof.
  intros Hold. revert s; induction fuel as [|fuel IH]; intros s Hlen.
  - destruct s; [|simpl in Hlen; lia]. simpl. apply Replaced_none.
    intros ?%Occurs_in_nil. done.
  - destruct s as [|c s]; simpl replace_loop.
    + apply Replaced_none. intros ?%Occurs_in_nil. done.
    + destruct (HasPrefix (c :: s) old) eqn:E.
      * apply HasPrefix_true in E as [t Ht]. rewrite Ht, drop_app_length.
        apply (Replaced_hit old new []).
        -- intros ?%Occurs_in_nil. done.
        -- apply IH. apply (f_equal length) in Ht.
           rewrite length_app in Ht. simpl in Hlen, Ht.
           destruct old; [done|]. simpl in Ht. lia.
      * apply Replaced_cons; [done|]. apply IH. simpl in Hlen. lia.
Qed.

Lemma Replace_Replaced old new s :
  old <> [] -> Replaced old new s (Replace s old new).
Proof.
  intros Hold. unfold Replace. destruct old; [done|].
  by apply replace_loop_Replaced.
Qed.

Lemma replace_loop_absent old new fuel s :
  ~ Occurs old s -> replace_loop fuel s old new = s.
Proof.
  revert s; induction fuel as [|fuel IH]; intros s Hs; [done|].
  destruct s as [|c s]; [done|]. simpl.
  destruct (HasPrefix (c :: s) old) eqn:E.
  - exfalso. apply Hs. apply HasPrefix_true in E as [t Ht].
    exists [], t. by rewrite Ht.
  - f_equal. apply IH. intros H. apply Hs. by apply (Occurs_app_r old [c]).
Qed.

Lemma Replace_absent old new s : ~ Occurs old s -> Replace s old new = s.
Proof.
  intros H. unfold Replace. destruct old; [done|]. by apply replace_loop_absent.
Qed.

(** Two strings that start a common string are comparable. *)
Lemma comparable_app a b x y : a ++ x = b ++ y -> comparable a b = true.
Proof.
  intros H. unfold comparable. apply orb_true_iff.
  apply app_eq_inv in H as [(l & -> & _) | (l & -> & _)].
  - left. apply HasPrefix_true. by exists l.
  - right. apply HasPrefix_true. by exists l.
Qed.

Lemma suffix_clash_app l m r :
  m <> [] -> comparable m r = true -> suffix_clash (l ++ m) r = true.
Proof.
  intros Hm Hc. induction l as [|c l IH]; simpl.
  - destruct m; [done|]. simpl. by rewrite Hc.
  - rewrite IH. apply orb_true_r.
Qed.

(** An occurrence of [k] cannot touch an occurrence of a placeholder that
    [k] cannot overlap: it lies before or after it. *)
Lemma Occurs_around k r u v :
  no_overlap k r = true ->
  Occurs k (u ++ r ++ v) -> Occurs k u \/ Occurs k v.
Proof.
  unfold no_overlap. intros [Hkr Hrk]%andb_true_iff (pre & post & H).
  apply negb_true_iff in Hkr, Hrk. symmetry in H.
  apply app_eq_inv in H as [(l & -> & H) | (l & -> & H)].
  - apply app_eq_inv in H as [(m & -> & H) | (m & -> & ->)].
    + destruct m as [|c m].
      * right. exists [], post. simpl in *. congruence.
      * exfalso. rewrite (suffix_clash_app l (c :: m) k) in Hrk; [done..|].
        by apply (comparable_app _ _ v post).
    + right. by exists m, post.
  - apply app_eq_inv in H as [(m & -> & H) | (m & -> & ->)].
    + destruct m as [|c m].
      * left. exists pre, []. by rewrite !app_nil_r.
      * exfalso. rewrite (suffix_clash_app l (c :: m) r) in Hkr; [done..|].
        by apply (comparable_app _ _ post v).
    + left. by exists pre, m.
Qed.

(** Replacing any [old] by [r] creates no occurrence of a [k] that cannot
    overlap [r]. *)
Lemma Replaced_preserves k r old s s' :
  no_overlap k r = true ->
  Replaced old r s s' -> ~ Occurs k s -> ~ Occurs k s'.
Proof.
  intros Hk H. induction H as [s Hs | u t t' Hu Ht IH]; [tauto|].
  intros Hfree E. apply (Occurs_around k r u t' Hk) in E as [E | E].
  - apply Hfree. by apply Occurs_app_l.
  - revert E. apply IH. intros E'. apply Hfree.
    apply Occurs_app_r. by apply Occurs_app_r.
Qed.

(** Replacing [k] by a placeholder it cannot overlap leaves no [k]. *)
Lemma Replaced_removes k r s s' :
  no_overlap k r = true -> Replaced k r s s' -> ~ Occurs k s'.
Proof.
  intros Hk H. induction H as [s Hs | u t t' Hu Ht IH]; [tauto|].
  intros E. apply (Occurs_around k r u t' Hk) in E as [E | E]; tauto.
Qed.

(** Strings without a common byte cannot overlap. *)
Lemma comparable_head c m d r :
  comparable (c :: m) (d :: r) = true -> c = d.
Proof.
  unfold comparable. simpl. rewrite (Ascii.eqb_sym c d).
  destruct (Ascii.eqb d c) eqn:E; [|done].
  intros _. symmetry. by apply Ascii.eqb_eq.
Qed.

Lemma suffix_clash_common k d r :
  suffix_clash k (d :: r) = true -> existsb (Ascii.eqb d) k = true.
Proof.
  induction k as [|c k IH]; simpl; [done|].
  intros [H | H]%orb_true_iff; apply orb_true_iff.
  - left. apply comparable_head in H as ->. apply Ascii.eqb_refl.
  - right. by apply IH.
Qed.

Lemma disjoint_bytes_no_clash k r :
  r <> [] -> disjoint_bytes k r = true -> suffix_clash k r = false.
Proof.
  intros Hr. unfold disjoint_bytes.
  induction k as [|c k IH]; simpl; [done|].
  intros [Hc Hk]%andb_true_iff. rewrite IH, orb_false_r by done.
  destruct r as [|d r]; [done|].
  destruct (comparable (c :: k) (d :: r)) eqn:E; [|done].
  apply comparable_head in E as ->.
  simpl in Hc. by rewrite Ascii.eqb_refl in Hc.
Qed.

Lemma disjoint_bytes_sym k r :
  disjoint_bytes k r = true -> disjoint_bytes r k = true.
Proof.
  unfold disjoint_bytes. rewrite !forallb_forall.
  intros H d Hd. apply negb_true_iff.
  destruct (existsb (Ascii.eqb d) k) eqn:E; [|done].
  apply existsb_exists in E as (c & Hc & ->%Ascii.eqb_eq).
  specialize (H c Hc). apply negb_true_iff in H.
  assert (existsb (Ascii.eqb c) r = true); [|congruence].
  apply existsb_exists. exists c. split; [done|]. apply Ascii.eqb_refl.
Qed.

Lemma disjoint_bytes_no_overlap k r :
  k <> [] -> r <> [] -> disjoint_bytes k r = true -> no_overlap k r = true.
Proof.
  intros Hk Hr H. unfold no_overlap.
  rewrite (disjoint_bytes_no_clash k r), (disjoint_bytes_no_clash r k);
    auto using disjoint_bytes_sym.
Qed.

End Replace.

(** ** The Error Redactor *)

Section Redactor.
Implicit Types (e : error) (keys : list gostring) (k key msg : gostring).

Lemma redact_key_preserves k key msg :
  no_overlap k placeholder = true ->
  ~ Occurs k msg -> ~ Occurs k (redact_key msg key).
Proof.
  intros Hk Hfree. unfold redact_key.
  destruct (0 <? length key)%nat eqn:E; [|done].
  apply (Replaced_preserves k placeholder key msg); [done| |done].
  apply Replace_Replaced. intros ->. done.
Qed.

Lemma redact_key_removes k msg :
  redactable k = true -> ~ Occurs k (redact_key msg k).
Proof.
  unfold redactable, redact_key. intros [Hlen Hk]%andb_true_iff.
  rewrite Hlen. apply (Replaced_removes k placeholder msg); [done|].
  apply Replace_Replaced. intros ->. done.
Qed.

(** A key that is not empty and has no byte of [redacted] is redactable. *)
Lemma disjoint_bytes_redactable k :
  k <> [] -> disjoint_bytes k placeholder = true -> redactable k = true.
Proof.
  intros Hk H. unfold redactable. apply andb_true_iff. split.
  - destruct k; [done|]. reflexivity.
  - by apply disjoint_bytes_no_overlap.
Qed.

Lemma redact_key_absent key msg :
  (key <> [] -> ~ Occurs key msg) -> redact_key msg key = msg.
Proof.
  intros H. unfold redact_key. destruct key as [|c key]; [done|].
  change (Replace msg (c :: key) placeholder = msg).
  apply Replace_absent. by apply H.
Qed.

Lemma redact_keys_preserve k keys msg :
  no_overlap k placeholder = true ->
  ~ Occurs k msg -> ~ Occurs k (fold_left redact_key keys msg).
Proof.
  intros Hk. revert msg. induction keys as [|key keys IH]; intros msg Hfree.
  - done.
  - simpl. apply IH. by apply redact_key_preserves.
Qed.

Lemma redact_keys_remove keys msg :
  Forall (fun k => redactable k = true ->
                   ~ Occurs k (fold_left redact_key keys msg)) keys.
Proof.
  revert msg. induction keys as [|key keys IH]; intros msg; constructor.
  - intros Hkey. simpl. apply redact_keys_preserve.
    + unfold redactable in Hkey. by apply andb_true_iff in Hkey as [_ ?].
    + by apply redact_key_removes.
  - apply IH.
Qed.

Lemma redact_keys_absent keys msg :
  Forall (fun k => k <> [] -> ~ Occurs k msg) keys ->
  fold_left redact_key keys msg = msg.
Proof.
  induction 1 as [|key keys Hkey _ IH]; [done|].
  simpl. by rewrite redact_key_absent.
Qed.

(** The message of the error the Error Redactor returns. *)
Lemma redactKeysFromError_message e keys :
  exists e',
    redactKeysFromError (Some e) keys = Some e' /\
    Error e' = fold_left redact_key keys (Error e).
Proof.
  unfold redactKeysFromError. case_decide as Heq; eauto.
Qed.

(** C4, as amended.  For a non-nil error and a list of keys, when at least
    one key that is not empty and cannot overlap the placeholder occurs in
    the message, the Error Redactor returns a new [errors.New] error whose
    message is the original one with every non-empty key replaced in turn,
    and no key that is not empty and cannot overlap the placeholder occurs
    in it. *)
Theorem redactKeysFromError_removes_keys e keys :
  Exists (fun k => redactable k = true /\ Occurs k (Error e)) keys ->
  exists e',
    redactKeysFromError (Some e) keys = Some e' /\
    e' = errors_New (fold_left redact_key keys (Error e)) /\
    Forall (fun k => redactable k = true -> ~ Occurs k (Error e')) keys.
Proof.
  intros Hocc.
  pose proof (redact_keys_remove keys (Error e)) as Hfree.
  exists (errors_New (fold_left redact_key keys (Error e))).
  split; [|by split].
  unfold redactKeysFromError. case_decide as Heq; [|done].
  exfalso. rewrite Heq in Hfree.
  apply Exists_exists in Hocc as (k & Hin & Hr & Hk).
  rewrite Forall_forall in Hfree. by apply (Hfree k).
Qed.

Lemma redactKeysFromError_removes_keys_witness :
  exists e',
    redactKeysFromError
      (Some (foreignError (gs "*url.Error")
               (gs "Get /api/v1/x?api_key=k3y: connection refused")))
      [gs "k3y"; gs "s3cr3t"] = Some e' /\
    e' = errors_New
           (fold_left redact_key [gs "k3y"; gs "s3cr3t"]
              (gs "Get /api/v1/x?api_key=k3y: connection refused")) /\
    Forall (fun k => redactable k = true -> ~ Occurs k (Error e'))
      [gs "k3y"; gs "s3cr3t"].
Proof.
  apply (redactKeysFromError_removes_keys
           (foreignError (gs "*url.Error")
              (gs "Get /api/v1/x?api_key=k3y: connection refused"))).
  apply Exists_cons_hd. split; [reflexivity|].
  exists (gs "Get /api/v1/x?api_key="), (gs ": connection refused").
  reflexivity.
Defined.

(** C4 fails as stated: the key [red] occurs in the message, and the message
    of the returned error, [redacted alert], still holds it. *)
Lemma redactKeysFromError_leaks_key :
  Exists (fun k => Occurs k (Error (errorString (gs "red alert")))) [gs "red"] /\
  redactKeysFromError (Some (errorString (gs "red alert"))) [gs "red"]
    = Some (errorString (gs "redacted alert")) /\
  Exists (fun k => Occurs k (gs "redacted alert")) [gs "red"].
Proof.
  split; [|split].
  - apply Exists_cons_hd. by exists [], (gs " alert").
  - reflexivity.
  - apply Exists_cons_hd. by exists [], (gs "acted alert").
Qed.

(** C9.  For a non-nil error, when no key occurs in its message (an empty
    key is skipped by the guard of the loop and need not be absent), the
    Error Redactor returns the error it was given, with its dynamic type. *)
Theorem redactKeysFromError_identity e keys :
  Forall (fun k => k <> [] -> ~ Occurs k (Error e)) keys ->
  redactKeysFromError (Some e) keys = Some e.
Proof.
  intros H. unfold redactKeysFromError.
  rewrite redact_keys_absent by done. by case_decide.
Qed.

Lemma redactKeysFromError_identity_witness :
  redactKeysFromError
    (Some (UnmarshalTypeError (gs "json: cannot unmarshal array")))
    [gs "k3y"; []; gs "s3cr3t"]
  = Some (UnmarshalTypeError (gs "json: cannot unmarshal array")).
Proof.
  apply redactKeysFromError_identity.
  constructor; [intros _; apply Contains_false; reflexivity|].
  constructor; [intros Hne; by destruct Hne|].
  constructor; [intros _; apply Contains_false; reflexivity|].
  constructor.
Defined.

End Redactor.

(** ** Dispatch, back-off selection and the retry loop *)

Section Dispatch.
Context `{lib : GoLib}.
Implicit Types (client : Client) (req : Request) (w : World) (b : BackOff).

Lemma doerForMethod_POST_PUT method :
  doerForMethod method = HttpClient_Do <->
  method = gs "POST" \/ method = gs "PUT".
Proof.
  unfold doerForMethod.
  destruct (bool_decide_reflect (method = gs "POST")) as [->|H1];
    [split; [by left | done]|].
  destruct (bool_decide_reflect (method = gs "PUT")) as [->|H2];
    [split; [by right | done]|].
  split; [discriminate | by intros [?|?]].
Qed.

Lemma mutating_POST_PUT method :
  mutating method = true <-> method = gs "POST" \/ method = gs "PUT".
Proof.
  unfold mutating, method_semantics.
  repeat case_bool_decide; subst; split; try done; auto;
    intros [?|?]; done.
Qed.

(** C1.  [doerForMethod] returns the single-attempt doer exactly when the
    method is mutating and the retrying doer exactly when it is not; and the
    doer returned for a mutating method hands the request to the transport
    once, returns what the transport returned, and notifies nothing. *)
Theorem doerForMethod_dispatch method :
  (doerForMethod method = HttpClient_Do <-> mutating method = true) /\
  (doerForMethod method = doRequestWithRetries_doer <->
   mutating method = false) /\
  (mutating method = true ->
   forall fuel client req w,
   exists w',
     call_doer fuel (doerForMethod method) client req w
       = Some (w', returned (HttpClient client (sent w) req)) /\
     sent w' = S (sent w) /\ notified w' = notified w).
Proof.
  assert (E : doerForMethod method = HttpClient_Do <-> mutating method = true)
    by (by rewrite doerForMethod_POST_PUT, mutating_POST_PUT).
  split; [done|]. split.
  - destruct (doerForMethod method), (mutating method);
      intuition congruence.
  - intros Hm fuel client req w. apply E in Hm. rewrite Hm. simpl.
    by eexists.
Qed.

(** C8.  [getBackOff] returns the policy of the caller when one is set;
    otherwise an exponential back-off, the library's default but for its
    maximum elapsed time, which is the retry timeout when that is not [-1]
    and 60 seconds when it is. *)
Theorem getBackOff_selection client :
  (forall b, BackOffOf client = Some b -> getBackOff client = b) /\
  (BackOffOf client = None -> RetryTimeout client <> -1 ->
   getBackOff client
     = Exponential
         (set_MaxElapsedTime (RetryTimeout client) NewExponentialBackOff) /\
   MaxElapsedTime
     (set_MaxElapsedTime (RetryTimeout client) NewExponentialBackOff)
     = RetryTimeout client) /\
  (BackOffOf client = None -> RetryTimeout client = -1 ->
   getBackOff client
     = Exponential (set_MaxElapsedTime (60 * Second) NewExponentialBackOff) /\
   MaxElapsedTime (set_MaxElapsedTime (60 * Second) NewExponentialBackOff)
     = 60000000000).
Proof.
  unfold getBackOff. split; [|split].
  - by intros b ->.
  - intros -> Ht. split; [|done].
    destruct (Z.eqb_spec (RetryTimeout client) (-1)); done.
  - intros -> ->. done.
Qed.

End Dispatch.

Lemma doerForMethod_dispatch_witness :
  exists w',
    call_doer 0 (doerForMethod (gs "PUT"))
      (Sample.client "k3y" "s3cr3t" Sample.refusing)
      (Sample.request "PUT") Sample.world0
    = Some (w', returned (Sample.refusing 0 (Sample.request "PUT"))) /\
    sent w' = 1%nat /\ notified w' = [].
Proof.
  apply (proj2 (proj2 (doerForMethod_dispatch (gs "PUT")))).
  reflexivity.
Defined.

Lemma getBackOff_selection_witness :
  getBackOff (Sample.client "k3y" "s3cr3t" Sample.refusing)
    = Exponential (set_MaxElapsedTime (60 * Second) NewExponentialBackOff) /\
  MaxElapsedTime (set_MaxElapsedTime (60 * Second) NewExponentialBackOff)
    = 60000000000.
Proof.
  apply (proj2 (proj2 (getBackOff_selection
                         (Sample.client "k3y" "s3cr3t" Sample.refusing))));
    reflexivity.
Defined.


(** ** The Retrying Executor *)

Section Retry.
Context `{lib : GoLib}.
Implicit Types (client : Client) (req : Request) (b : BackOff).

Lemma status_error_success resp :
  200 <= StatusCode resp < 300 -> status_error resp = None.
Proof.
  intros H. unfold status_error.
  destruct (Z.leb_spec 200 (StatusCode resp)); [|lia].
  destruct (Z.ltb_spec (StatusCode resp) 300); [done|lia].
Qed.

Lemma status_error_client resp :
  400 <= StatusCode resp < 500 -> status_error resp = None.
Proof.
  intros H. unfold status_error.
  destruct (Z.leb_spec 200 (StatusCode resp)); [|lia].
  destruct (Z.ltb_spec (StatusCode resp) 300); [lia|]. simpl.
  destruct (Z.leb_spec 400 (StatusCode resp)); [|lia].
  destruct (Z.ltb_spec (StatusCode resp) 500); [done|lia].
Qed.

Lemma status_error_other resp :
  ~ 200 <= StatusCode resp < 300 -> ~ 400 <= StatusCode resp < 500 ->
  status_error resp
    = Some (errors_New
              (gs "Received HTTP status code " ++ Itoa (StatusCode resp))).
Proof.
  intros H2 H4. unfold status_error.
  destruct (Z.leb_spec 200 (StatusCode resp)),
    (Z.ltb_spec (StatusCode resp) 300),
    (Z.leb_spec 400 (StatusCode resp)),
    (Z.ltb_spec (StatusCode resp) 500); simpl; solve [done | lia].
Qed.

Lemma RetryNotify_loop_stop fuel client req b n s :
  snd (operation client req s) = None ->
  RetryNotify_loop (S fuel) client req b n s
    = Some (fst (operation client req s), None).
Proof.
  intros H. cbn [RetryNotify_loop].
  destruct (operation client req s) as [s' err]. simpl in H. by subst.
Qed.

Lemma RetryNotify_loop_retry fuel client req b n s e :
  snd (operation client req s) = Some e ->
  NextBackOff_ctx b (req_ctx req) n <> Stop ->
  done_during_wait (req_ctx req) n = false ->
  RetryNotify_loop (S fuel) client req b n s
    = RetryNotify_loop fuel client req b (S n)
        (notify client (fst (operation client req s)) e
           (NextBackOff_ctx b (req_ctx req) n)).
Proof.
  intros H Hnext Hdone. cbn [RetryNotify_loop].
  destruct (operation client req s) as [s' err]. simpl in H. subst.
  destruct (Z.eqb_spec (NextBackOff_ctx b (req_ctx req) n) Stop); [done|].
  by rewrite Hdone.
Qed.

(** C3.  One attempt of the Retrying Executor sends the request once, and
    the error [operation] returns classifies what came back: a transport
    failure is returned as the error; a status in [200,300) and a status in
    [400,500) give no error; any other status gives the error
    [Received HTTP status code <n>].  No error ends the retry loop at once;
    an error makes the loop run another attempt when the back-off policy
    grants a wait and the context is not done. *)
Theorem operation_classification fuel client req b n s :
  let o := HttpClient client (sent (fst s)) req in
  let s' := fst (operation client req s) in
  sent (fst s') = S (sent (fst s)) /\
  (forall resp e, o = Failed resp e ->
     snd (operation client req s) = Some e) /\
  (forall resp, o = Answered resp -> 200 <= StatusCode resp < 300 ->
     snd (operation client req s) = None) /\
  (forall resp, o = Answered resp -> 400 <= StatusCode resp < 500 ->
     snd (operation client req s) = None) /\
  (forall resp, o = Answered resp ->
     ~ 200 <= StatusCode resp < 300 -> ~ 400 <= StatusCode resp < 500 ->
     snd (operation client req s)
       = Some (errors_New
                 (gs "Received HTTP status code " ++ Itoa (StatusCode resp)))) /\
  (snd (operation client req s) = None ->
     RetryNotify_loop (S fuel) client req b n s = Some (s', None)) /\
  (forall e, snd (operation client req s) = Some e ->
     NextBackOff_ctx b (req_ctx req) n <> Stop ->
     done_during_wait (req_ctx req) n = false ->
     RetryNotify_loop (S fuel) client req b n s
       = RetryNotify_loop fuel client req b (S n)
           (notify client s' e (NextBackOff_ctx b (req_ctx req) n))).
Proof.
  intros o s'. subst o s'.
  split; [done|]. split; [|split; [|split; [|split; [|split]]]].
  - intros resp e E. unfold operation, Do. simpl. by rewrite E.
  - intros resp E H. unfold operation, Do. simpl. rewrite E.
    by apply status_error_success.
  - intros resp E H. unfold operation, Do. simpl. rewrite E.
    by apply status_error_client.
  - intros resp E H2 H4. unfold operation, Do. simpl. rewrite E.
    by apply status_error_other.
  - apply RetryNotify_loop_stop.
  - apply RetryNotify_loop_retry.
Qed.

End Retry.

Lemma operation_classification_witness :
  RetryNotify_loop 2
    (Sample.client "k3y" "s3cr3t"
       (Sample.answering (Sample.response 503 "503 Service Unavailable" ∅ [])))
    (Sample.request "GET")
    (@Custom Sample.lib [Second]) 0 (Sample.world0, None)
  = RetryNotify_loop 1
      (Sample.client "k3y" "s3cr3t"
         (Sample.answering (Sample.response 503 "503 Service Unavailable" ∅ [])))
      (Sample.request "GET")
      (@Custom Sample.lib [Second]) 1
      ({| sent := 1; notified := [] |},
       Some (Sample.response 503 "503 Service Unavailable" ∅ [])).
Proof.
  apply (proj2 (proj2 (proj2 (proj2 (proj2 (proj2
           (operation_classification 1
              (Sample.client "k3y" "s3cr3t"
                 (Sample.answering
                    (Sample.response 503 "503 Service Unavailable" ∅ [])))
              (Sample.request "GET") (@Custom Sample.lib [Second]) 0
              (Sample.world0, None)))))))
         (errors_New (gs "Received HTTP status code 503"))).
  - reflexivity.
  - discriminate.
  - reflexivity.
Defined.

(** ** The Header Extractor *)

Section RateLimits.
Context `{lib : GoLib}.
Implicit Types (header : Header) (key : gostring).

Lemma Header_Get_missing header key :
  missing header key -> Header_Get header key = [].
Proof. unfold Header_Get. by intros [-> | ->]. Qed.

Lemma intFromHeader_no_integer header key :
  no_integer header key -> intFromHeader header key = 0.
Proof.
  unfold intFromHeader. intros [H | H].
  - by rewrite Header_Get_missing.
  - by rewrite H.
Qed.

Lemma durationFromHeader_no_duration header key :
  no_duration header key -> durationFromHeader header key = 0.
Proof.
  unfold durationFromHeader. intros [H | H].
  - by rewrite Header_Get_missing, strconv_ParseFloat_empty.
  - by rewrite H.
Qed.

Lemma non_numeric_ParseInt value :
  non_numeric value = true -> strconv_ParseInt value = None.
Proof.
  unfold strconv_ParseInt. destruct value as [|c s]; [done|].
  intros [Hc Hs]%andb_true_iff.
  destruct (Ascii.eqb c "+" || Ascii.eqb c "-").
  - destruct s as [|c' s]; [done|].
    simpl in Hs. apply andb_true_iff in Hs as [Hc' _].
    simpl. by destruct (digit_of_byte c').
  - simpl. by destruct (digit_of_byte c).
Qed.

(** C7, as amended.  Each field of the rate limit is zero when its header
    is missing or is refused by the parser of the field, whatever the other
    headers hold; [strconv.ParseInt] refuses every value that is not
    numeric, so [Limit] and [Remaining] are zero for such a value.  When
    the header of each of the four fields is missing or refused by the
    parser of the field, the Header Extractor returns the zero rate limit.
    The extractor is a total function to [RateLimit]: it has no error to
    return, and a request whose response was handled without error returns
    no error, whatever the extractor finds in the headers. *)
Theorem newRateLimitFromHeaders_zero header :
  (no_integer header (gs "X-RateLimit-Limit") ->
   Limit (newRateLimitFromHeaders header) = 0) /\
  (no_duration header (gs "X-RateLimit-Period") ->
   Period (newRateLimitFromHeaders header) = 0) /\
  (no_integer header (gs "X-RateLimit-Remaining") ->
   Remaining (newRateLimitFromHeaders header) = 0) /\
  (no_duration header (gs "X-RateLimit-Reset") ->
   Reset (newRateLimitFromHeaders header) = 0) /\
  (forall key,
     non_numeric (Header_Get header key) = true ->
     no_integer header key /\ intFromHeader header key = 0) /\
  (no_integer header (gs "X-RateLimit-Limit") ->
   no_duration header (gs "X-RateLimit-Period") ->
   no_integer header (gs "X-RateLimit-Remaining") ->
   no_duration header (gs "X-RateLimit-Reset") ->
   newRateLimitFromHeaders header = zero_RateLimit) /\
  (forall fuel client ctx method api reqBody out w url req w' resp out',
   uriForAPI client api = inl url ->
   newJSONRequest method url reqBody = inl req ->
   call_doer fuel (doerForMethod method) client (attach ctx req) w
     = Some (w', (Some resp, None)) ->
   handleResponse resp out = (out', None) ->
   RespHeader resp = header ->
   doRequestWithContext fuel client ctx method api reqBody out w
     = Some (mkResult w' out'
               {| RateLimitOf := newRateLimitFromHeaders header |} None)).
Proof.
  unfold newRateLimitFromHeaders, zero_RateLimit. simpl.
  split; [apply intFromHeader_no_integer|].
  split; [apply durationFromHeader_no_duration|].
  split; [apply intFromHeader_no_integer|].
  split; [apply durationFromHeader_no_duration|].
  split; [|split].
  - intros key Hkey%non_numeric_ParseInt.
    assert (no_integer header key) by (by right).
    split; [done|]. by apply intFromHeader_no_integer.
  - intros H1 H2 H3 H4.
    by rewrite !intFromHeader_no_integer, !durationFromHeader_no_duration.
  - intros fuel client ctx method api reqBody out w url req w' resp out'
      Huri Hreq Hdo Hh <-.
    unfold doRequestWithContext. by rewrite Huri, Hreq, Hdo, Hh.
Qed.

End RateLimits.

Lemma newRateLimitFromHeaders_zero_witness :
  @newRateLimitFromHeaders Sample.lib
    (<[gs "X-Ratelimit-Limit" := [gs "many"]]>
       (<[gs "X-Ratelimit-Reset" := [gs "soon"]]>
          (<[gs "X-Ratelimit-Remaining" := []]> ∅)))
  = zero_RateLimit.
Proof.
  apply (proj1 (proj2 (proj2 (proj2 (proj2 (proj2
           (@newRateLimitFromHeaders_zero Sample.lib _))))))).
  - right. reflexivity.
  - left. left. reflexivity.
  - left. right. reflexivity.
  - right. reflexivity.
Defined.

(** C7 fails as stated: every rate-limit header is missing but
    [X-RateLimit-Period], whose value [Inf] is not numeric;
    [strconv.ParseFloat] accepts it, and the period is not zero. *)
Lemma newRateLimitFromHeaders_not_zero :
  let header : Header := <[gs "X-Ratelimit-Period" := [gs "Inf"]]> ∅ in
  Forall (fun key => missing header key \/
                     non_numeric (Header_Get header key) = true)
    [gs "X-RateLimit-Limit"; gs "X-RateLimit-Period";
     gs "X-RateLimit-Remaining"; gs "X-RateLimit-Reset"] /\
  Period (@newRateLimitFromHeaders Sample.lib_float header) = - 2 ^ 63 /\
  @newRateLimitFromHeaders Sample.lib_float header <> zero_RateLimit.
Proof.
  split; [|split].
  - constructor; [left; by left|].
    constructor; [by right|].
    constructor; [left; by left|].
    constructor; [left; by left|]. constructor.
  - reflexivity.
  - discriminate.
Qed.

(** ** The Response Handler *)

Section Handler.
Context `{lib : GoLib}.
Implicit Types (resp : Response) (out : option Target) (e : error).

(** The steps of [handleResponse] after the body has been decoded into the
    envelope without a fatal error: the check of the status of the envelope,
    and the decoding into the target. *)
Lemma handleResponse_decoded resp out common err :
  body_err (RespBody resp) = None ->
  200 <= StatusCode resp <= 299 ->
  json_Unmarshal_status (envelope_body (body_bytes (RespBody resp)))
    = (common, err) ->
  (forall e, err = Some e -> isUnmarshalTypeError e = true) ->
  handleResponse resp out =
    if bool_decide (Status common = gs "error")
    then (out, Some (errors_New
                       (gs "API returned error: " ++ ErrorField common)))
    else match out with
         | None => (None, None)
         | Some t =>
             let '(t', err') :=
               json_Unmarshal_out
                 (envelope_body (body_bytes (RespBody resp))) t in
             (Some t', err')
         end.
Proof.
  intros Hread Hcode Hdec Herr. unfold handleResponse, ReadAll.
  rewrite Hread.
  destruct (Z.ltb_spec (StatusCode resp) 200); [lia|].
  destruct (Z.ltb_spec 299 (StatusCode resp)); [lia|]. simpl.
  rewrite Hdec. destruct err as [e|]; [|done].
  by rewrite (Herr e eq_refl).
Qed.

(** C5.  For a response that was read in full, with a status in the
    success range and a body that decodes into an envelope whose status is
    [error], the Response Handler returns the error
    [API returned error: <the error string of the envelope>]; the message
    holds that string, and the handler does not return success. *)
Theorem handleResponse_envelope_error resp out common :
  body_err (RespBody resp) = None ->
  200 <= StatusCode resp <= 299 ->
  json_Unmarshal_status (envelope_body (body_bytes (RespBody resp)))
    = (common, None) ->
  Status common = gs "error" ->
  exists e,
    handleResponse resp out = (out, Some e) /\
    e = errors_New (gs "API returned error: " ++ ErrorField common) /\
    Occurs (ErrorField common) (Error e).
Proof.
  intros Hread Hcode Hdec Hstatus.
  rewrite (handleResponse_decoded resp out common None) by done.
  rewrite bool_decide_eq_true_2 by done.
  eexists. split; [done|]. split; [done|].
  exists (gs "API returned error: "), []. simpl. by rewrite app_nil_r.
Qed.

(** C6, as amended.  When decoding the body into the envelope returns a
    type mismatch, the Response Handler does not return that error: if the
    status that the decoder left in the envelope is not [error], it returns
    success when there is no target and otherwise the result of decoding the
    body into the target; if that status is [error], it returns the API
    error.  Any other error of the decoder is returned as it is. *)
Theorem handleResponse_envelope_mismatch resp out common e :
  body_err (RespBody resp) = None ->
  200 <= StatusCode resp <= 299 ->
  json_Unmarshal_status (envelope_body (body_bytes (RespBody resp)))
    = (common, Some e) ->
  (isUnmarshalTypeError e = true -> Status common <> gs "error" ->
   handleResponse resp out =
     match out with
     | None => (None, None)
     | Some t =>
         let '(t', err') :=
           json_Unmarshal_out
             (envelope_body (body_bytes (RespBody resp))) t in
         (Some t', err')
     end) /\
  (isUnmarshalTypeError e = true -> Status common = gs "error" ->
   handleResponse resp out =
     (out, Some (errors_New
                   (gs "API returned error: " ++ ErrorField common)))) /\
  (isUnmarshalTypeError e = false ->
   handleResponse resp out = (out, Some e)).
Proof.
  intros Hread Hcode Hdec. split; [|split].
  - intros He Hstatus.
    rewrite (handleResponse_decoded resp out common (Some e)); try done.
    + by rewrite bool_decide_eq_false_2.
    + by intros ? [= <-].
  - intros He Hstatus.
    rewrite (handleResponse_decoded resp out common (Some e)); try done.
    + by rewrite bool_decide_eq_true_2.
    + by intros ? [= <-].
  - intros He. unfold handleResponse, ReadAll. rewrite Hread.
    destruct (Z.ltb_spec (StatusCode resp) 200); [lia|].
    destruct (Z.ltb_spec 299 (StatusCode resp)); [lia|]. simpl.
    by rewrite Hdec, He.
Qed.

End Handler.

Lemma handleResponse_envelope_error_witness :
  exists e,
    @handleResponse Sample.lib
      (Sample.response 200 "200 OK" ∅
         (Sample.json "{'status':'error','error':'boom'}"))
      (Some []) = (Some [], Some e) /\
    e = errors_New (gs "API returned error: " ++ gs "boom") /\
    Occurs (gs "boom") (Error e).
Proof.
  apply (@handleResponse_envelope_error Sample.lib
           (Sample.response 200 "200 OK" ∅
              (Sample.json "{'status':'error','error':'boom'}"))
           (Some [])
           {| Status := gs "error"; ErrorField := gs "boom" |}).
  - reflexivity.
  - simpl. lia.
  - reflexivity.
  - reflexivity.
Defined.

Lemma handleResponse_envelope_mismatch_witness :
  @handleResponse Sample.lib
    (Sample.response 200 "200 OK" ∅ (gs "[]")) (Some (gs "{}"))
  = (Some (gs "{}"),
     Some (UnmarshalTypeError
             (gs "json: cannot unmarshal array into Go value of type datadog.valid"))).
Proof.
  apply (proj1 (@handleResponse_envelope_mismatch Sample.lib
                  (Sample.response 200 "200 OK" ∅ (gs "[]")) (Some (gs "{}"))
                  {| Status := []; ErrorField := [] |}
                  (UnmarshalTypeError
                     (gs "json: cannot unmarshal array into Go value of type datadog.StatusResponse"))
                  eq_refl ltac:(simpl; lia) eq_refl)).
  - reflexivity.
  - discriminate.
Defined.

(** C6 fails as stated: a body whose [status] is the string [error] and
    whose [error] is the number 5 decodes into the envelope with a type mismatch, the decoder having filled the
    status; the handler then fails with the API error and leaves the target
    as it was, although the body would decode into it. *)
Lemma handleResponse_mismatch_not_decoded :
  let body := Sample.json "{'status':'error','error':5}" in
  let resp := Sample.response 200 "200 OK" ∅ body in
  (exists common e,
     @json_Unmarshal_status Sample.lib (envelope_body body) = (common, Some e)
     /\ isUnmarshalTypeError e = true) /\
  @json_Unmarshal_out Sample.lib (envelope_body body) [] = (body, None) /\
  @handleResponse Sample.lib resp (Some [])
    = (Some [], Some (errorString (gs "API returned error: "))).
Proof.
  split; [|split].
  - eexists _, _. split; reflexivity.
  - reflexivity.
  - reflexivity.
Qed.

(** ** The whole request *)

Section Pipeline.
Context `{lib : GoLib}.
Implicit Types (client : Client) (ctx : option Context) (w : World)
  (out : option Target) (r : Result) (e : error).

Lemma doRequestWithContext_Ended fuel client ctx method api reqBody out w r :
  doRequestWithContext fuel client ctx method api reqBody out w = Some r ->
  (exists e, uriForAPI client api = inr e /\
             r = mkResult w out zero_metadata (Some e)) \/
  (exists url unredacted,
     uriForAPI client api = inl url /\
     Ended fuel client ctx method url reqBody out w r unredacted).
Proof.
  unfold doRequestWithContext. intros H.
  destruct (uriForAPI client api) as [url|e].
  2: { left. exists e. split; [done|]. congruence. }
  right. exists url.
  destruct (newJSONRequest method url reqBody) as [req|e] eqn:Hreq.
  2: { injection H as <-. eexists. split; [done|]. by apply Ended_build. }
  destruct (call_doer fuel (doerForMethod method) client (attach ctx req) w)
    as [[w' [resp [e|]]]|] eqn:Hdo; [| |done].
  - assert (H' : Some (mkResult w' out zero_metadata
                         (redactKeysFromError (Some e)
                            [apiKey client; appKey client])) = Some r)
      by (by destruct resp).
    injection H' as <-. eexists. split; [done|].
    by apply (Ended_transport _ _ _ _ _ _ _ _ req w' resp).
  - destruct resp as [resp|]; [|done].
    destruct (handleResponse resp out) as [out' [e|]] eqn:Hh;
      injection H as <-; eexists; (split; [done|]).
    + by apply (Ended_handler _ _ _ _ _ _ _ _ req w' resp).
    + by apply (Ended_success _ _ _ _ _ _ _ _ req w' resp).
Qed.

Lemma redactKeysFromError_Some e keys :
  redactKeysFromError (Some e) keys <> None.
Proof. unfold redactKeysFromError. by case_decide. Qed.

(** C10.  When [doRequestWithContext] returns a non-nil error, from
    whichever phase, the metadata it returns is the zero value; when it
    returns no error, the metadata holds the rate limit read from the
    headers of the response that the doer returned and that
    [handleResponse] accepted. *)
Theorem doRequestWithContext_metadata
    fuel client ctx method api reqBody out w r :
  doRequestWithContext fuel client ctx method api reqBody out w = Some r ->
  (res_err r <> None ->
   res_md r = zero_metadata /\ RateLimitOf (res_md r) = zero_RateLimit) /\
  (res_err r = None ->
   exists url req w' resp,
     uriForAPI client api = inl url /\
     newJSONRequest method url reqBody = inl req /\
     call_doer fuel (doerForMethod method) client (attach ctx req) w
       = Some (w', (Some resp, None)) /\
     snd (handleResponse resp out) = None /\
     res_md r
       = {| RateLimitOf := newRateLimitFromHeaders (RespHeader resp) |}).
Proof.
  intros [(e & Huri & ->) | (url & un & Huri & H)]%doRequestWithContext_Ended.
  - split; [done|]. simpl. done.
  - destruct H as [e He | req w' resp e Hreq Hdo | req w' resp out' e Hreq Hdo Hh
                   | req w' resp out' Hreq Hdo Hh]; cbn [res_err res_md].
    1-3: split; [done|]; intros Hnone;
         by apply redactKeysFromError_Some in Hnone.
    split; [done|]. intros _. exists url, req, w', resp.
    by rewrite Hh.
Qed.

(** C2, as amended.  When the URL has been built, every error that
    [doRequestWithContext] returns is the result of the Error Redactor on
    the two keys of the client and on the error of the phase that failed:
    the error of [newJSONRequest], the error of the doer (the transport or
    the retries), or the error of [handleResponse] on the response of the
    doer.  Its message is the message of that error with the keys replaced
    in turn, and a key that is not empty and cannot overlap the placeholder
    does not occur in it. *)
Theorem doRequestWithContext_error_redacted
    fuel client ctx method api reqBody out w r url e :
  doRequestWithContext fuel client ctx method api reqBody out w = Some r ->
  uriForAPI client api = inl url ->
  res_err r = Some e ->
  exists unredacted,
    (newJSONRequest method url reqBody = inr unredacted \/
     (exists req w' resp,
        newJSONRequest method url reqBody = inl req /\
        call_doer fuel (doerForMethod method) client (attach ctx req) w
          = Some (w', (resp, Some unredacted))) \/
     (exists req w' resp out',
        newJSONRequest method url reqBody = inl req /\
        call_doer fuel (doerForMethod method) client (attach ctx req) w
          = Some (w', (Some resp, None)) /\
        handleResponse resp out = (out', Some unredacted))) /\
    redactKeysFromError (Some unredacted) [apiKey client; appKey client]
      = Some e /\
    Error e
      = fold_left redact_key [apiKey client; appKey client]
          (Error unredacted) /\
    (redactable (apiKey client) = true -> ~ Occurs (apiKey client) (Error e)) /\
    (redactable (appKey client) = true -> ~ Occurs (appKey client) (Error e)).
Proof.
  intros [(e' & Huri & _) | (url' & un & Huri & H)]%doRequestWithContext_Ended
    Hurl Herr; [congruence|].
  assert (url' = url) as -> by congruence.
  assert (exists u,
            (newJSONRequest method url reqBody = inr u \/
             (exists req w' resp,
                newJSONRequest method url reqBody = inl req /\
                call_doer fuel (doerForMethod method) client (attach ctx req) w
                  = Some (w', (resp, Some u))) \/
             (exists req w' resp out',
                newJSONRequest method url reqBody = inl req /\
                call_doer fuel (doerForMethod method) client (attach ctx req) w
                  = Some (w', (Some resp, None)) /\
                handleResponse resp out = (out', Some u))) /\
            res_err r = redactKeysFromError (Some u)
                          [apiKey client; appKey client]) as (u & Hphase & Hr).
  { destruct H as [u Hu | req w' resp u Hreq Hdo | req w' resp out' u Hreq Hdo Hh
                   | req w' resp out' Hreq Hdo Hh]; cbn [res_err] in *.
    - exists u. split; [by left | done].
    - exists u. split; [right; left; by exists req, w', resp | done].
    - exists u. split; [right; right; by exists req, w', resp, out' | done].
    - discriminate. }
  rewrite Herr in Hr. exists u. split; [done|]. split; [done|].
  destruct (redactKeysFromError_message u [apiKey client; appKey client])
    as (e' & He' & Hmsg).
  assert (e' = e) as -> by congruence.
  split; [done|].
  pose proof (redact_keys_remove [apiKey client; appKey client] (Error u))
    as Hfree.
  rewrite <- Hmsg in Hfree.
  apply Forall_cons in Hfree as [H1 Hfree].
  apply Forall_cons in Hfree as [H2 _]. done.
Qed.

(** The error of [uriForAPI] is returned as it is, not through the Error
    Redactor; no request is sent. *)
Lemma doRequestWithContext_uri_error
    fuel client ctx method api reqBody out w e :
  uriForAPI client api = inr e ->
  doRequestWithContext fuel client ctx method api reqBody out w
    = Some (mkResult w out zero_metadata (Some e)).
Proof. intros H. unfold doRequestWithContext. by rewrite H. Qed.


(** X18.  A request with a mutating method always returns, whatever the
    fuel, and is handed to the transport once if it could be built and never
    otherwise. *)
Lemma doRequestWithContext_mutating_once
    fuel client ctx method api reqBody out w :
  mutating method = true ->
  exists r,
    doRequestWithContext fuel client ctx method api reqBody out w = Some r /\
    match uriForAPI client api with
    | inr _ => sent (res_world r) = sent w
    | inl url =>
        match newJSONRequest method url reqBody with
        | inr _ => sent (res_world r) = sent w
        | inl _ => sent (res_world r) = S (sent w)
        end
    end.
Proof.
  intros Hm. apply mutating_POST_PUT, doerForMethod_POST_PUT in Hm.
  unfold doRequestWithContext. rewrite Hm.
  destruct (uriForAPI client api) as [url|e]; [|by eexists].
  destruct (newJSONRequest method url reqBody) as [req|e]; [|by eexists].
  cbn [call_doer Do].
  destruct (HttpClient client (sent w) (attach ctx req)) as [resp e|resp];
    cbn [returned].
  - destruct resp; by eexists.
  - destruct (handleResponse resp out) as [out' [e|]]; by eexists.
Qed.

End Pipeline.

Lemma doRequestWithContext_metadata_witness :
  exists r,
    @doRequestWithContext Sample.lib 1
      (Sample.client "k3y" "s3cr3t"
         (Sample.answering
            (Sample.response 200 "200 OK"
               (<[gs "X-Ratelimit-Limit" := [gs "100"]]> ∅)
               (Sample.json "{'status':'error','error':'boom'}"))))
      None (gs "GET") (gs "/v1/x") None None Sample.world0 = Some r /\
    res_err r = Some (errorString (gs "API returned error: boom")) /\
    res_md r = zero_metadata /\ RateLimitOf (res_md r) = zero_RateLimit.
Proof.
  exists (mkResult {| sent := 1; notified := [] |} None zero_metadata
            (Some (errorString (gs "API returned error: boom")))).
  split; [reflexivity|]. split; [reflexivity|].
  apply (@doRequestWithContext_metadata Sample.lib 1
           (Sample.client "k3y" "s3cr3t"
              (Sample.answering
                 (Sample.response 200 "200 OK"
                    (<[gs "X-Ratelimit-Limit" := [gs "100"]]> ∅)
                    (Sample.json "{'status':'error','error':'boom'}"))))
           None (gs "GET") (gs "/v1/x") None None Sample.world0).
  - reflexivity.
  - discriminate.
Defined.

Lemma doRequestWithContext_error_redacted_witness :
  exists unredacted,
    (@newJSONRequest Sample.lib (gs "POST")
       (gs "https://app.datadoghq.com/api/v1/x?api_key=k3y&application_key=s3cr3t")
       None = inr unredacted \/
     (exists req w' resp,
        @newJSONRequest Sample.lib (gs "POST")
          (gs "https://app.datadoghq.com/api/v1/x?api_key=k3y&application_key=s3cr3t")
          None = inl req /\
        call_doer 0 (doerForMethod (gs "POST"))
          (Sample.client "k3y" "s3cr3t" Sample.refusing) (attach None req)
          Sample.world0
        = Some (w', (resp, Some unredacted))) \/
     (exists req w' resp out',
        @newJSONRequest Sample.lib (gs "POST")
          (gs "https://app.datadoghq.com/api/v1/x?api_key=k3y&application_key=s3cr3t")
          None = inl req /\
        call_doer 0 (doerForMethod (gs "POST"))
          (Sample.client "k3y" "s3cr3t" Sample.refusing) (attach None req)
          Sample.world0
        = Some (w', (Some resp, None)) /\
        @handleResponse Sample.lib resp None = (out', Some unredacted))) /\
    redactKeysFromError (Some unredacted) [gs "k3y"; gs "s3cr3t"]
      = Some (errorString
                (gs "POST https://app.datadoghq.com/api/v1/x?api_key=redacted&application_key=redacted: dial tcp: connection refused")) /\
    gs "POST https://app.datadoghq.com/api/v1/x?api_key=redacted&application_key=redacted: dial tcp: connection refused"
      = fold_left redact_key [gs "k3y"; gs "s3cr3t"] (Error unredacted) /\
    (redactable (gs "k3y") = true ->
     ~ Occurs (gs "k3y")
         (gs "POST https://app.datadoghq.com/api/v1/x?api_key=redacted&application_key=redacted: dial tcp: connection refused")) /\
    (redactable (gs "s3cr3t") = true ->
     ~ Occurs (gs "s3cr3t")
         (gs "POST https://app.datadoghq.com/api/v1/x?api_key=redacted&application_key=redacted: dial tcp: connection refused")).
Proof.
  apply (@doRequestWithContext_error_redacted Sample.lib 0
           (Sample.client "k3y" "s3cr3t" Sample.refusing)
           None (gs "POST") (gs "/v1/x") None None Sample.world0
           (mkResult {| sent := 1; notified := [] |} None zero_metadata
              (Some (errorString
                 (gs "POST https://app.datadoghq.com/api/v1/x?api_key=redacted&application_key=redacted: dial tcp: connection refused"))))
           (gs "https://app.datadoghq.com/api/v1/x?api_key=k3y&application_key=s3cr3t")).
  - reflexivity.
  - reflexivity.
  - reflexivity.
Defined.

(** C2 fails as stated: with the API key [red], the error that a refusing
    transport returns for a [POST] comes back from [doRequestWithContext],
    through the Error Redactor, with a message that holds the key. *)
Lemma doRequestWithContext_leaks_key :
  let client := Sample.client "red" "s3cr3t" Sample.refusing in
  exists r e,
    @doRequestWithContext Sample.lib 0 client None (gs "POST") (gs "/v1/x")
      None None Sample.world0 = Some r /\
    res_err r = Some e /\
    Error e = gs "POST https://app.datadoghq.com/api/v1/x?api_key=redacted&application_key=redacted: dial tcp: connection refused" /\
    Occurs (apiKey client) (Error e).
Proof.
  eexists _, _. split; [reflexivity|]. split; [reflexivity|].
  split; [reflexivity|].
  exists (gs "POST https://app.datadoghq.com/api/v1/x?api_key="),
    (gs "acted&application_key=redacted: dial tcp: connection refused").
  reflexivity.
Qed.

(** The error of a URL that cannot be parsed reaches the caller without
    redaction: here the path holds the API key, and so does the message. *)
Lemma doRequestWithContext_uri_error_example :
  let client := Sample.client "k3y" "s3cr3t" Sample.refusing in
  exists r e,
    @doRequestWithContext Sample.lib 0 client None (gs "GET")
      (gs "/v1/hosts/k3y%zz") None None Sample.world0 = Some r /\
    res_err r = Some e /\
    Error e = Sample.json "parse 'https://app.datadoghq.com/api/v1/hosts/k3y%zz': invalid URL escape '%zz'" /\
    redactable (apiKey client) = true /\
    Occurs (apiKey client) (Error e).
Proof.
  eexists _, _. split; [reflexivity|]. split; [reflexivity|].
  split; [reflexivity|]. split; [reflexivity|].
  exists (Sample.json "parse 'https://app.datadoghq.com/api/v1/hosts/"),
    (Sample.json "%zz': invalid URL escape '%zz'").
  reflexivity.
Qed.

(** * Further properties of the code *)

(** ** The retry loop *)

Section RetryLoop.
Context `{lib : GoLib}.
Implicit Types (client : Client) (req : Request) (b : BackOff) (w : World)
  (s : World * option Response).

Lemma status_error_None resp :
  status_error resp = None <->
  200 <= StatusCode resp < 300 \/ 400 <= StatusCode resp < 500.
Proof.
  split.
  - unfold status_error.
    destruct (Z.leb_spec 200 (StatusCode resp)),
      (Z.ltb_spec (StatusCode resp) 300),
      (Z.leb_spec 400 (StatusCode resp)),
      (Z.ltb_spec (StatusCode resp) 500); simpl; intros; solve [done | lia].
  - intros [H | H];
      [by apply status_error_success | by apply status_error_client].
Qed.

Lemma operation_sent client req s :
  sent (fst (fst (operation client req s))) = S (sent (fst s)) /\
  notified (fst (fst (operation client req s))) = notified (fst s).
Proof. done. Qed.

Lemma operation_None client req s :
  snd (operation client req s) = None ->
  exists resp,
    HttpClient client (sent (fst s)) req = Answered resp /\
    status_error resp = None /\
    snd (fst (operation client req s)) = Some resp.
Proof.
  unfold operation, Do. simpl.
  destruct (HttpClient client (sent (fst s)) req) as [r e|resp]; [done|].
  intros H. by exists resp.
Qed.

Lemma notify_sent client s e next :
  sent (fst (notify client s e next)) = sent (fst s) /\
  snd (notify client s e next) = snd s.
Proof. unfold notify. simpl. by destruct (RetryNotify client). Qed.

Lemma RetryNotify_loop_success fuel client req b n s s' :
  RetryNotify_loop fuel client req b n s = Some (s', None) ->
  exists resp,
    snd s' = Some resp /\
    status_error resp = None /\
    (sent (fst s) < sent (fst s'))%nat /\
    HttpClient client (pred (sent (fst s'))) req = Answered resp.
Proof.
  revert n s. induction fuel as [|fuel IH]; intros n s H; [done|].
  cbn [RetryNotify_loop] in H.
  destruct (operation client req s) as [s1 [e|]] eqn:Hop.
  - destruct (NextBackOff_ctx b (req_ctx req) n =? Stop); [done|].
    destruct (done_during_wait (req_ctx req) n); [done|].
    apply IH in H as (resp & H1 & H2 & H3 & H4). exists resp.
    repeat split; try done.
    pose proof (notify_sent client s1 e (NextBackOff_ctx b (req_ctx req) n))
      as [Hs _].
    pose proof (operation_sent client req s) as [Hs1 _].
    rewrite Hop in Hs1. simpl in Hs1. lia.
  - injection H as <-.
    destruct (operation_None client req s) as (resp & H1 & H2 & H3);
      [by rewrite Hop|].
    pose proof (operation_sent client req s) as [Hs1 _].
    rewrite Hop in H3, Hs1. simpl in H3, Hs1. exists resp.
    repeat split; try done; [lia|]. by rewrite Hs1.
Qed.

(** X1.  When [doRequestWithRetries] returns no error, it returns a
    response, the one the transport gave to the last request sent, and the
    status of that response lies in [200,300) or in [400,500). *)
Theorem doRequestWithRetries_success fuel client req w w' resp :
  doRequestWithRetries fuel client req w = Some (w', (resp, None)) ->
  exists r,
    resp = Some r /\
    (200 <= StatusCode r < 300 \/ 400 <= StatusCode r < 500) /\
    (sent w < sent w')%nat /\
    HttpClient client (pred (sent w')) req = Answered r.
Proof.
  unfold doRequestWithRetries. intros H.
  destruct (RetryNotify_loop fuel client req (getBackOff client) 0 (w, None))
    as [[[w1 r1] e1]|] eqn:Hloop; [|done].
  injection H as -> -> ->.
  apply RetryNotify_loop_success in Hloop as (r & H1 & H2 & H3 & H4).
  exists r. by rewrite <- status_error_None.
Qed.

(** X2.  A response whose status lies in [200,300) or in [400,500) ends
    the retries at once: when the transport answers the first request with
    it, [doRequestWithRetries] returns it without error after that one
    request, whatever the back-off policy and the context, and notifies
    nothing. *)
Theorem doRequestWithRetries_terminal fuel client req w resp :
  HttpClient client (sent w) req = Answered resp ->
  200 <= StatusCode resp < 300 \/ 400 <= StatusCode resp < 500 ->
  doRequestWithRetries (S fuel) client req w
    = Some ({| sent := S (sent w); notified := notified w |},
            (Some resp, None)).
Proof.
  intros Hdo Hcode%status_error_None. unfold doRequestWithRetries.
  rewrite RetryNotify_loop_stop.
  - unfold operation, Do. simpl. by rewrite Hdo.
  - unfold operation, Do. simpl. by rewrite Hdo.
Qed.

End RetryLoop.

Lemma doRequestWithRetries_success_witness :
  exists r,
    Some (Sample.response 404 "404 Not Found" ∅ []) = Some r /\
    (200 <= StatusCode r < 300 \/ 400 <= StatusCode r < 500) /\
    (0 < 1)%nat /\
    Sample.answering (Sample.response 404 "404 Not Found" ∅ []) 0
      (Sample.request "GET") = Answered r.
Proof.
  apply (@doRequestWithRetries_success Sample.lib 5
           (Sample.client "k3y" "s3cr3t"
              (Sample.answering (Sample.response 404 "404 Not Found" ∅ [])))
           (Sample.request "GET") Sample.world0
           {| sent := 1; notified := [] |}).
  reflexivity.
Defined.

Lemma doRequestWithRetries_terminal_witness :
  @doRequestWithRetries Sample.lib 1
    (Sample.client "k3y" "s3cr3t"
       (Sample.answering (Sample.response 404 "404 Not Found" ∅ [])))
    (Sample.request "GET") Sample.world0
  = Some ({| sent := 1; notified := [] |},
          (Some (Sample.response 404 "404 Not Found" ∅ []), None)).
Proof.
  apply (@doRequestWithRetries_terminal Sample.lib 0
           (Sample.client "k3y" "s3cr3t"
              (Sample.answering (Sample.response 404 "404 Not Found" ∅ [])))
           (Sample.request "GET") Sample.world0
           (Sample.response 404 "404 Not Found" ∅ [])).
  - reflexivity.
  - right. simpl. lia.
Defined.

Section RetryPolicy.
Context `{lib : GoLib}.
Implicit Types (client : Client) (req : Request) (b : BackOff) (w : World)
  (s : World * option Response).

Lemma operation_classify client req s :
  snd (operation client req s)
    = classify (HttpClient client (sent (fst s)) req).
Proof. done. Qed.

Lemma RetryNotify_loop_exhaust client req b k :
  forall fuel n s,
  (k < fuel)%nat ->
  (forall i, (i < k)%nat ->
     NextBackOff_ctx b (req_ctx req) (n + i) <> Stop /\
     done_during_wait (req_ctx req) (n + i) = false) ->
  NextBackOff_ctx b (req_ctx req) (n + k) = Stop ->
  (forall i, (i <= k)%nat ->
     classify (HttpClient client (sent (fst s) + i) req) <> None) ->
  exists s' e,
    RetryNotify_loop fuel client req b n s = Some (s', Some e) /\
    sent (fst s') = (sent (fst s) + k + 1)%nat /\
    classify (HttpClient client (sent (fst s) + k) req) = Some e /\
    length (notified (fst s'))
      = (length (notified (fst s)) + if RetryNotify client then k else 0)%nat.
Proof.
  induction k as [|k IH]; intros fuel n s Hfuel Hgo Hstop Hfail;
    (destruct fuel as [|fuel]; [lia|]).
  - destruct (classify (HttpClient client (sent (fst s)) req)) as [e|] eqn:Hc.
    2: { exfalso. apply (Hfail 0%nat); [lia|]. by rewrite Nat.add_0_r. }
    exists (fst (operation client req s)), e.
    cbn [RetryNotify_loop].
    pose proof (operation_classify client req s) as Hop.
    pose proof (operation_sent client req s) as [Hs Hn].
    destruct (operation client req s) as [s1 err]. simpl in Hop, Hs, Hn.
    subst err. rewrite Hc. rewrite Nat.add_0_r in Hstop. rewrite Hstop.
    simpl. rewrite !Nat.add_0_r. repeat split; try done; [lia|].
    rewrite Hn. destruct (RetryNotify client); lia.
  - destruct (classify (HttpClient client (sent (fst s)) req)) as [e|] eqn:Hc.
    2: { exfalso. apply (Hfail 0%nat); [lia|]. by rewrite Nat.add_0_r. }
    destruct (Hgo 0%nat) as [Hnext Hdone]; [lia|].
    rewrite Nat.add_0_r in Hnext, Hdone.
    rewrite (RetryNotify_loop_retry fuel client req b n s e);
      [|by rewrite operation_classify|done..].
    set (s1 := notify client (fst (operation client req s)) e
                 (NextBackOff_ctx b (req_ctx req) n)).
    assert (Hs1 : sent (fst s1) = S (sent (fst s))).
    { unfold s1. by rewrite (proj1 (notify_sent _ _ _ _)). }
    assert (Hn1 : length (notified (fst s1))
                  = (length (notified (fst s))
                     + if RetryNotify client then 1 else 0)%nat).
    { unfold s1, notify, operation, Do. simpl.
      destruct (RetryNotify client); simpl; [|lia].
      rewrite length_app. simpl. lia. }
    destruct (IH fuel (S n) s1) as (s' & e' & Hloop & Hsent & Hlast & Hlen).
    + lia.
    + intros i Hi. replace (S n + i)%nat with (n + S i)%nat by lia.
      apply Hgo. lia.
    + by replace (S n + k)%nat with (n + S k)%nat by lia.
    + intros i Hi. rewrite Hs1.
      replace (S (sent (fst s)) + i)%nat with (sent (fst s) + S i)%nat by lia.
      apply Hfail. lia.
    + exists s', e'. split; [done|]. rewrite Hs1 in Hsent, Hlast.
      replace (sent (fst s) + S k)%nat with (S (sent (fst s)) + k)%nat by lia.
      split; [lia|]. split; [done|].
      rewrite Hlen, Hn1. destruct (RetryNotify client); lia.
Qed.

(** X3.  When every request fails or is answered with a status outside
    [200,300) and [400,500), and the back-off policy with the context of
    the request grants [k] waits and then stops, [doRequestWithRetries]
    sends exactly [k + 1] requests and returns the error of the last one;
    the callback, if set, has been notified [k] times. *)
Theorem doRequestWithRetries_exhausted fuel client req w k :
  (k < fuel)%nat ->
  (forall i, (i < k)%nat ->
     NextBackOff_ctx (getBackOff client) (req_ctx req) i <> Stop /\
     done_during_wait (req_ctx req) i = false) ->
  NextBackOff_ctx (getBackOff client) (req_ctx req) k = Stop ->
  (forall i, (i <= k)%nat ->
     classify (HttpClient client (sent w + i) req) <> None) ->
  exists w' resp e,
    doRequestWithRetries fuel client req w = Some (w', (resp, Some e)) /\
    sent w' = (sent w + k + 1)%nat /\
    classify (HttpClient client (sent w + k) req) = Some e /\
    length (notified w')
      = (length (notified w) + if RetryNotify client then k else 0)%nat.
Proof.
  intros Hfuel Hgo Hstop Hfail.
  destruct (RetryNotify_loop_exhaust client req (getBackOff client) k
              fuel 0 (w, None))
    as ([w' resp] & e & Hloop & H1 & H2 & H3); try done.
  exists w', resp, e. unfold doRequestWithRetries. by rewrite Hloop.
Qed.

Lemma RetryNotify_loop_cancelled client req b k :
  done_before_wait (req_ctx req) k = true \/
  done_during_wait (req_ctx req) k = true ->
  forall fuel n s,
  (n <= k)%nat -> (k - n < fuel)%nat ->
  exists s' err,
    RetryNotify_loop fuel client req b n s = Some (s', err) /\
    (sent (fst s') <= sent (fst s) + (k - n) + 1)%nat.
Proof.
  intros Hdone. induction fuel as [|fuel IH]; intros n s Hn Hfuel; [lia|].
  cbn [RetryNotify_loop].
  pose proof (operation_sent client req s) as [Hs _].
  destruct (operation client req s) as [s1 [e|]]; simpl in Hs.
  2: { eexists _, _. split; [done|]. simpl. lia. }
  destruct (Z.eqb_spec (NextBackOff_ctx b (req_ctx req) n) Stop) as [|Hnext].
  { eexists _, _. split; [done|]. simpl. lia. }
  pose proof (notify_sent client s1 e (NextBackOff_ctx b (req_ctx req) n))
    as [Hs' _].
  destruct (done_during_wait (req_ctx req) n) eqn:Hd.
  { eexists _, _. split; [done|]. cbn [fst]. rewrite Hs'. lia. }
  assert (n <> k).
  { intros ->. destruct Hdone as [Hb | Hd']; [|congruence].
    apply Hnext. unfold NextBackOff_ctx. by rewrite Hb. }
  destruct (IH (S n)
              (notify client s1 e (NextBackOff_ctx b (req_ctx req) n)))
    as (s' & err & Hloop & Hle); [lia..|].
  exists s', err. split; [done|]. lia.
Qed.

(** X4.  Once the context of the request is done, no further request is
    sent: when the context is done at the [k]-th back-off wait,
    [doRequestWithRetries] returns, whatever the back-off policy, after at
    most [k + 1] requests. *)
Theorem doRequestWithRetries_cancelled fuel client req w k :
  done_before_wait (req_ctx req) k = true \/
  done_during_wait (req_ctx req) k = true ->
  (k < fuel)%nat ->
  exists w' result,
    doRequestWithRetries fuel client req w = Some (w', result) /\
    (sent w' <= sent w + k + 1)%nat.
Proof.
  intros Hdone Hfuel.
  destruct (RetryNotify_loop_cancelled client req (getBackOff client) k Hdone
              fuel 0 (w, None))
    as ([w' resp] & err & Hloop & Hle); [lia..|].
  exists w', (resp, err). unfold doRequestWithRetries. rewrite Hloop.
  split; [done|]. simpl in Hle. lia.
Qed.

End RetryPolicy.

Lemma doRequestWithRetries_exhausted_witness :
  exists w' resp e,
    @doRequestWithRetries Sample.lib 5
      (Sample.retrying_client [Second; Second] true
         (Sample.answering
            (Sample.response 503 "503 Service Unavailable" ∅ [])))
      (Sample.request "GET") Sample.world0
    = Some (w', (resp, Some e)) /\
    sent w' = 3%nat /\
    classify (Answered (Sample.response 503 "503 Service Unavailable" ∅ []))
    = Some e /\
    length (notified w') = 2%nat.
Proof.
  apply (@doRequestWithRetries_exhausted Sample.lib 5
           (Sample.retrying_client [Second; Second] true
              (Sample.answering
                 (Sample.response 503 "503 Service Unavailable" ∅ [])))
           (Sample.request "GET") Sample.world0 2).
  - lia.
  - intros i Hi. destruct i as [|[|i]]; [by split..|lia].
  - reflexivity.
  - intros i Hi. discriminate.
Defined.

Lemma doRequestWithRetries_cancelled_witness :
  exists w' result,
    @doRequestWithRetries Sample.lib 1
      (Sample.client "k3y" "s3cr3t" Sample.refusing)
      (WithContext (Sample.request "GET") Sample.cancelled) Sample.world0
    = Some (w', result) /\
    (sent w' <= 0 + 0 + 1)%nat.
Proof.
  apply (@doRequestWithRetries_cancelled Sample.lib 1
           (Sample.client "k3y" "s3cr3t" Sample.refusing)
           (WithContext (Sample.request "GET") Sample.cancelled)
           Sample.world0 0).
  - right. reflexivity.
  - lia.
Defined.

(** ** The request, end to end *)

Section EndToEnd.
Context `{lib : GoLib}.
Implicit Types (client : Client) (req : Request) (b : BackOff) (w : World)
  (s : World * option Response) (out : option Target) (ctx : option Context).

Lemma RetryNotify_loop_sent fuel client req b n s s' err :
  RetryNotify_loop fuel client req b n s = Some (s', err) ->
  (sent (fst s) < sent (fst s'))%nat.
Proof.
  revert n s. induction fuel as [|fuel IH]; intros n s H; [done|].
  cbn [RetryNotify_loop] in H.
  pose proof (operation_sent client req s) as [Hs _].
  destruct (operation client req s) as [s1 [e|]]; simpl in Hs.
  2: { injection H as <- _. lia. }
  destruct (NextBackOff_ctx b (req_ctx req) n =? Stop).
  { injection H as <- _. lia. }
  pose proof (notify_sent client s1 e (NextBackOff_ctx b (req_ctx req) n))
    as [Hs' _].
  destruct (done_during_wait (req_ctx req) n).
  { injection H as <- _. lia. }
  apply IH in H. lia.
Qed.

Lemma call_doer_sent fuel d client req w w' result :
  call_doer fuel d client req w = Some (w', result) ->
  (sent w < sent w')%nat.
Proof.
  destruct d; simpl.
  - intros [= <- _]. simpl. lia.
  - unfold doRequestWithRetries.
    destruct (RetryNotify_loop fuel client req (getBackOff client) 0 (w, None))
      as [[[w1 r1] e1]|] eqn:Hloop; [|done].
    intros [= <- _]. by apply RetryNotify_loop_sent in Hloop.
Qed.

(** X6.  A request is handed to the transport if and only if it could be
    built.  When the URL cannot be parsed, [doRequestWithContext] returns,
    whatever the fuel, the error of [uriForAPI] with the zero metadata;
    when the request cannot be built, it returns the error of
    [newJSONRequest], redacted, with the zero metadata; in both cases it has
    sent and notified nothing and left the target as it was.  When the
    request was built, at least one request has been sent whenever
    [doRequestWithContext] returns. *)
Theorem doRequestWithContext_sends
    fuel client ctx method api reqBody out w :
  (forall e,
     uriForAPI client api = inr e ->
     doRequestWithContext fuel client ctx method api reqBody out w
       = Some (mkResult w out zero_metadata (Some e))) /\
  (forall url e,
     uriForAPI client api = inl url ->
     newJSONRequest method url reqBody = inr e ->
     exists e',
       redactKeysFromError (Some e) [apiKey client; appKey client]
         = Some e' /\
       doRequestWithContext fuel client ctx method api reqBody out w
         = Some (mkResult w out zero_metadata (Some e'))) /\
  (forall url req r,
     uriForAPI client api = inl url ->
     newJSONRequest method url reqBody = inl req ->
     doRequestWithContext fuel client ctx method api reqBody out w = Some r ->
     (sent w < sent (res_world r))%nat).
Proof.
  split; [|split].
  - intros e Huri. unfold doRequestWithContext. by rewrite Huri.
  - intros url e Huri Hreq.
    destruct (redactKeysFromError_message e [apiKey client; appKey client])
      as (e' & He' & _).
    exists e'. split; [done|].
    unfold doRequestWithContext. by rewrite Huri, Hreq, He'.
  - intros url req r Huri Hreq H. unfold doRequestWithContext in H.
    rewrite Huri, Hreq in H.
    destruct (call_doer fuel (doerForMethod method) client (attach ctx req) w)
      as [[w' [resp [e|]]]|] eqn:Hdo; [| |done];
      apply call_doer_sent in Hdo.
    + assert (res_world r = w') as -> by (destruct resp; by injection H as <-).
      done.
    + destruct resp as [resp|]; [|done].
      destruct (handleResponse resp out) as [out' [e|]];
        by injection H as <-.
Qed.

(** X7.  When the transport answers the first request, and the method is
    [POST] or [PUT] or the status lies in [200,300) or in [400,500), the
    request is sent exactly once and nothing is notified, whatever the fuel
    and the back-off policy; what [doRequestWithContext] returns is decided
    by [handleResponse] on that answer: its error, redacted, with the zero
    metadata, or no error with the rate limit of the headers. *)
Theorem doRequestWithContext_first_answer
    fuel client ctx method api reqBody out w url req resp :
  uriForAPI client api = inl url ->
  newJSONRequest method url reqBody = inl req ->
  HttpClient client (sent w) (attach ctx req) = Answered resp ->
  method = gs "POST" \/ method = gs "PUT" \/
  200 <= StatusCode resp < 300 \/ 400 <= StatusCode resp < 500 ->
  doRequestWithContext (S fuel) client ctx method api reqBody out w
    = Some
        (mkResult {| sent := S (sent w); notified := notified w |}
           (fst (handleResponse resp out))
           (match snd (handleResponse resp out) with
            | Some _ => zero_metadata
            | None =>
                {| RateLimitOf := newRateLimitFromHeaders (RespHeader resp) |}
            end)
           (match snd (handleResponse resp out) with
            | Some e =>
                redactKeysFromError (Some e) [apiKey client; appKey client]
            | None => None
            end)).
Proof.
  intros Huri Hreq Hdo Hterm. unfold doRequestWithContext.
  rewrite Huri, Hreq.
  assert (call_doer (S fuel) (doerForMethod method) client (attach ctx req) w
          = Some ({| sent := S (sent w); notified := notified w |},
                  (Some resp, None))) as ->.
  { destruct (doerForMethod method) eqn:Hd.
    - cbn [call_doer Do]. by rewrite Hdo.
    - cbn [call_doer]. apply doRequestWithRetries_terminal; [done|].
      destruct Hterm as [Hm | [Hm | Hcode]]; [| |done].
      + assert (doerForMethod method = HttpClient_Do)
          by (apply doerForMethod_POST_PUT; by left).
        congruence.
      + assert (doerForMethod method = HttpClient_Do)
          by (apply doerForMethod_POST_PUT; by right).
        congruence. }
  by destruct (handleResponse resp out) as [out' [e|]].
Qed.

(** X8.  [handleResponse] fails before it decodes anything when the body
    cannot be read or the status is outside [200,299]: a read error is
    returned as it is, whatever the status; otherwise the error is
    [API error <status line>: <body>], whose message holds the status line
    and the raw body.  In both cases the target is left as it was. *)
Theorem handleResponse_undecoded resp out :
  (forall e, body_err (RespBody resp) = Some e ->
     handleResponse resp out = (out, Some e)) /\
  (body_err (RespBody resp) = None ->
   StatusCode resp < 200 \/ 299 < StatusCode resp ->
   exists e,
     handleResponse resp out = (out, Some e) /\
     Error e = gs "API error " ++ StatusLine resp ++ gs ": "
               ++ body_bytes (RespBody resp) /\
     Occurs (StatusLine resp) (Error e) /\
     Occurs (body_bytes (RespBody resp)) (Error e)).
Proof.
  unfold handleResponse, ReadAll. split.
  - by intros e ->.
  - intros -> Hcode.
    assert ((StatusCode resp <? 200) || (299 <? StatusCode resp) = true) as ->.
    { apply orb_true_iff. destruct Hcode; [left|right]; by apply Z.ltb_lt. }
    eexists. split; [done|]. split; [done|]. split.
    + by exists (gs "API error "), (gs ": " ++ body_bytes (RespBody resp)).
    + exists (gs "API error " ++ StatusLine resp ++ gs ": "), [].
      simpl. by rewrite app_nil_r, <- !app_assoc.
Qed.

(** X9.  With a status in [200,299], an empty body is handled exactly as
    the body [{}]. *)
Theorem handleResponse_empty_body resp out :
  200 <= StatusCode resp <= 299 ->
  body_bytes (RespBody resp) = [] ->
  handleResponse resp out
  = handleResponse
      {| StatusCode := StatusCode resp; StatusLine := StatusLine resp;
         RespHeader := RespHeader resp;
         RespBody := {| body_bytes := gs "{}";
                        body_err := body_err (RespBody resp) |} |}
      out.
Proof.
  intros Hcode Hbody. unfold handleResponse, ReadAll. simpl. rewrite Hbody.
  destruct (body_err (RespBody resp)); [done|].
  destruct (Z.ltb_spec (StatusCode resp) 200); [lia|].
  destruct (Z.ltb_spec 299 (StatusCode resp)); [lia|]. done.
Qed.

End EndToEnd.

(** ** Building the request *)

Section Building.
Context `{lib : GoLib}.
Implicit Types (client : Client) (req : Request).

(** X10.  A request that [newJSONRequest] builds has the background
    context.  Without payload it has no body and no header; with a payload,
    which was encoded without error, its body is the encoding and its only
    header is [Content-Type], found under any spelling of the name, with
    the value [application/json]. *)
Theorem newJSONRequest_built method url reqBody req :
  newJSONRequest method url reqBody = inl req ->
  req_ctx req = Background /\
  http_NewRequest_err method url = None /\
  match reqBody with
  | None => req_body req = None /\ req_header req = ∅
  | Some p =>
      json_Marshal p = (default [] (req_body req), None) /\
      req_body req <> None /\
      Header_Get (req_header req) (gs "content-type")
        = gs "application/json" /\
      forall key,
        CanonicalMIMEHeaderKey key <> gs "Content-Type" ->
        Header_Get (req_header req) key = []
  end.
Proof.
  unfold newJSONRequest, encodeRequestBody.
  destruct reqBody as [p|].
  - destruct (json_Marshal p) as [raw [e|]]; [done|].
    destruct (http_NewRequest_err method url); [done|].
    intros [= <-]. simpl. repeat split; try done.
    intros key Hkey. unfold Header_Get, Header_Add.
    rewrite lookup_insert_ne; [by rewrite lookup_empty|].
    intros Heq. apply Hkey. by rewrite <- Heq.
  - destruct (http_NewRequest_err method url); [done|].
    by intros [= <-].
Qed.

(** X11.  The URI of [uriForAPI] carries the query of the parsed URL with
    the API key appended to the values of [api_key] and the application
    key appended to the values of [application_key]; the other parameters of
    the query are kept as they are. *)
Theorem uriForAPI_query client api apiBase :
  url_Parse (baseUrl client ++ gs "/api" ++ api) = inl apiBase ->
  exists q : Values,
    uriForAPI client api = inl (url_String apiBase (values_Encode q)) /\
    q !! gs "api_key"
      = Some (default [] (url_Query apiBase !! gs "api_key")
              ++ [apiKey client]) /\
    q !! gs "application_key"
      = Some (default [] (url_Query apiBase !! gs "application_key")
              ++ [appKey client]) /\
    forall key,
      key <> gs "api_key" -> key <> gs "application_key" ->
      q !! key = url_Query apiBase !! key.
Proof.
  intros Hparse. unfold uriForAPI. rewrite Hparse.
  eexists. split; [done|]. unfold Values_Add. split; [|split].
  - rewrite lookup_insert_ne by done. by rewrite lookup_insert_eq.
  - rewrite lookup_insert_eq. by rewrite lookup_insert_ne.
  - intros key H1 H2. by rewrite !lookup_insert_ne.
Qed.

(** X12.  Redacting twice is redacting once: when every key is empty or
    cannot overlap the placeholder, the Error Redactor returns the error it
    is given if that error came out of the Error Redactor with the same
    keys. *)
Theorem redactKeysFromError_idempotent (e e' : error) keys :
  Forall (fun k => k = [] \/ redactable k = true) keys ->
  redactKeysFromError (Some e) keys = Some e' ->
  redactKeysFromError (Some e') keys = Some e'.
Proof.
  intros Hkeys Hred.
  destruct (redactKeysFromError_message e keys) as (e1 & He1 & Hmsg).
  assert (e1 = e') as -> by congruence.
  pose proof (redact_keys_remove keys (Error e)) as Hfree.
  rewrite <- Hmsg in Hfree.
  unfold redactKeysFromError. rewrite redact_keys_absent; [by case_decide|].
  rewrite Forall_forall in Hkeys, Hfree |- *.
  intros k Hin Hne. destruct (Hkeys k Hin) as [-> | Hk]; [done|].
  by apply Hfree.
Qed.

End Building.

(** ** Reading numbers from the headers *)

Section Numbers.
Implicit Types (d : Decimal.uint) (s : gostring) (header : Header).

Lemma parse_digits_cons c s acc n :
  digit_of_byte c = Some n ->
  parse_digits (c :: s) acc = parse_digits s (acc * 10 + n).
Proof. intros H. simpl. by rewrite H. Qed.

Lemma parse_digits_acc d :
  forall acc a, acc = Z.pos a ->
  parse_digits (gs (NilEmpty.string_of_uint d)) acc
  = Some (Z.pos (Pos.of_uint_acc d a)).
Proof.
  induction d as [|d IH|d IH|d IH|d IH|d IH|d IH|d IH|d IH|d IH|d IH];
    intros acc a ->; [done|..];
    cbn [NilEmpty.string_of_uint gs list_ascii_of_string Pos.of_uint_acc];
    erewrite parse_digits_cons by reflexivity; apply IH;
    match goal with
    | |- context [Z.of_nat ?n - 48] =>
        let v := eval vm_compute in (Z.of_nat n - 48) in
        change (Z.of_nat n - 48) with v
    end; lia.
Qed.

Lemma parse_digits_zero d :
  parse_digits (gs (NilEmpty.string_of_uint d)) 0
  = Some (Z.of_N (Pos.of_uint d)).
Proof.
  induction d as [|d IH|d IH|d IH|d IH|d IH|d IH|d IH|d IH|d IH|d IH];
    [done|exact IH|..];
    cbn [NilEmpty.string_of_uint gs list_ascii_of_string Pos.of_uint Z.of_N];
    erewrite parse_digits_cons by reflexivity; by apply parse_digits_acc.
Qed.

Lemma digits_head d :
  d <> Decimal.Nil ->
  exists c s, gs (NilEmpty.string_of_uint d) = c :: s /\
              Ascii.eqb c "-" = false /\ Ascii.eqb c "+" = false.
Proof. destruct d; [done|..]; intros _; by eexists _, _. Qed.

Lemma ParseInt_unsigned c s :
  Ascii.eqb c "-" = false -> Ascii.eqb c "+" = false ->
  strconv_ParseInt (c :: s)
  = match parse_digits (c :: s) 0 with
    | None => None
    | Some un => if 2 ^ 63 <=? un then None else Some un
    end.
Proof.
  intros H1 H2. unfold strconv_ParseInt. rewrite H1, H2.
  cbn [orb negb andb]. destruct (parse_digits (c :: s) 0) as [un|]; [|done].
  by destruct (2 ^ 63 <=? un).
Qed.

Lemma ParseInt_negative c s :
  strconv_ParseInt ("-"%char :: c :: s)
  = match parse_digits (c :: s) 0 with
    | None => None
    | Some un => if 2 ^ 63 <? un then None else Some (- un)
    end.
Proof.
  unfold strconv_ParseInt. cbn [Ascii.eqb Bool.eqb orb negb andb].
  destruct (parse_digits (c :: s) 0) as [un|]; [|done].
  by destruct (2 ^ 63 <? un).
Qed.

(** What [strconv.ParseInt] makes of a number written by [strconv.Itoa]. *)
Lemma ParseInt_Itoa n :
  strconv_ParseInt (Itoa n)
  = if (- 2 ^ 63 <=? n) && (n <? 2 ^ 63) then Some n else None.
Proof.
  destruct n as [|p|p]; [done|..]; unfold Itoa; cbn [Z.to_int NilZero.string_of_int].
  - pose proof (DecimalPos.Unsigned.to_uint_nonnil p) as Hnil.
    pose proof (DecimalPos.Unsigned.of_to p) as Hp.
    destruct (digits_head _ Hnil) as (c & s & Hd & H1 & H2).
    assert (NilZero.string_of_uint (Pos.to_uint p)
            = NilEmpty.string_of_uint (Pos.to_uint p)) as ->
      by (by destruct (Pos.to_uint p)).
    pose proof (parse_digits_zero (Pos.to_uint p)) as Hparse.
    rewrite Hd in Hparse |- *. rewrite ParseInt_unsigned, Hparse, Hp by done.
    cbn [Z.of_N].
    destruct (Z.leb_spec (2 ^ 63) (Z.pos p)), (Z.leb_spec (- 2 ^ 63) (Z.pos p)),
      (Z.ltb_spec (Z.pos p) (2 ^ 63)); simpl; solve [done | lia].
  - pose proof (DecimalPos.Unsigned.to_uint_nonnil p) as Hnil.
    pose proof (DecimalPos.Unsigned.of_to p) as Hp.
    destruct (digits_head _ Hnil) as (c & s & Hd & H1 & H2).
    assert (NilZero.string_of_uint (Pos.to_uint p)
            = NilEmpty.string_of_uint (Pos.to_uint p)) as ->
      by (by destruct (Pos.to_uint p)).
    pose proof (parse_digits_zero (Pos.to_uint p)) as Hparse.
    change (gs (String "-" (NilEmpty.string_of_uint (Pos.to_uint p))))
      with ("-"%char :: gs (NilEmpty.string_of_uint (Pos.to_uint p))).
    rewrite Hd in Hparse |- *. rewrite ParseInt_negative, Hparse, Hp.
    cbn [Z.of_N].
    destruct (Z.ltb_spec (2 ^ 63) (Z.pos p)), (Z.leb_spec (- 2 ^ 63) (Z.neg p)),
      (Z.ltb_spec (Z.neg p) (2 ^ 63)); simpl; solve [done | lia].
Qed.

(** X13.  A header whose first value is a number in decimal is read back
    by [intFromHeader] as that number when it fits 64 bits, and as 0 when it
    does not; the other values of the header are ignored. *)
Theorem intFromHeader_decimal header key n values :
  header !! CanonicalMIMEHeaderKey key = Some (Itoa n :: values) ->
  intFromHeader header key
  = if (- 2 ^ 63 <=? n) && (n <? 2 ^ 63) then n else 0.
Proof.
  intros H. unfold intFromHeader, Header_Get. rewrite H, ParseInt_Itoa.
  by destruct ((- 2 ^ 63 <=? n) && (n <? 2 ^ 63)).
Qed.

End Numbers.

Section Headers.
Context `{lib : GoLib}.
Implicit Types (header : Header).

(** X14.  The rate limit depends on four entries of the header map only,
    those under the canonical names of the four headers: two header maps
    that agree on them give the same rate limit. *)
Theorem newRateLimitFromHeaders_entries header1 header2 :
  header1 !! gs "X-Ratelimit-Limit" = header2 !! gs "X-Ratelimit-Limit" ->
  header1 !! gs "X-Ratelimit-Period" = header2 !! gs "X-Ratelimit-Period" ->
  header1 !! gs "X-Ratelimit-Remaining"
    = header2 !! gs "X-Ratelimit-Remaining" ->
  header1 !! gs "X-Ratelimit-Reset" = header2 !! gs "X-Ratelimit-Reset" ->
  newRateLimitFromHeaders header1 = newRateLimitFromHeaders header2.
Proof.
  intros H1 H2 H3 H4.
  unfold newRateLimitFromHeaders, intFromHeader, durationFromHeader,
    Header_Get.
  change (CanonicalMIMEHeaderKey (gs "X-RateLimit-Limit"))
    with (gs "X-Ratelimit-Limit").
  change (CanonicalMIMEHeaderKey (gs "X-RateLimit-Period"))
    with (gs "X-Ratelimit-Period").
  change (CanonicalMIMEHeaderKey (gs "X-RateLimit-Remaining"))
    with (gs "X-Ratelimit-Remaining").
  change (CanonicalMIMEHeaderKey (gs "X-RateLimit-Reset"))
    with (gs "X-Ratelimit-Reset").
  by rewrite H1, H2, H3, H4.
Qed.

End Headers.

(** ** The client and the validation of its keys *)

Section ClientProperties.
Context `{lib : GoLib}.
Implicit Types (client : Client) (w : World).

(** X15.  A client made by [NewClient] has a base URL that is not empty,
    the value of [DATADOG_HOST] when that is set and
    [https://app.datadoghq.com] otherwise; it has no notification callback,
    and its back-off is the exponential one that gives up after 60
    seconds. *)
Theorem NewClient_defaults host transport api app :
  GetBaseUrl (NewClient host transport api app) <> [] /\
  (host <> [] -> GetBaseUrl (NewClient host transport api app) = host) /\
  (host = [] ->
   GetBaseUrl (NewClient host transport api app)
     = gs "https://app.datadoghq.com") /\
  RetryNotify (NewClient host transport api app) = false /\
  getBackOff (NewClient host transport api app)
    = Exponential (set_MaxElapsedTime (60 * Second) NewExponentialBackOff).
Proof.
  unfold GetBaseUrl, NewClient. simpl.
  destruct (bool_decide_reflect (host = [])) as [->|Hne]; by repeat split.
Qed.

(** The request that [Validate] sends. *)
Lemma validate_request_built uri :
  http_NewRequest_err (gs "GET") uri = None ->
  newJSONRequest (gs "GET") uri None
  = inl {| req_method := gs "GET"; req_url := uri; req_body := None;
           req_header := ∅; req_ctx := Background |}.
Proof. intros H. unfold newJSONRequest, encodeRequestBody. by rewrite H. Qed.

(** X16.  [Validate] returns true only without an error and only when the
    last request it sent, a [GET] without body for [/v1/validate], was
    answered with a status in [200,300) or in [400,500) and a body that
    could be read and decodes, without error, to a [valid] whose [IsValid]
    is true; whenever it returns an error it returns false. *)
Theorem Validate_true unmarshal_valid fuel client w w' ok err :
  Validate unmarshal_valid fuel client w = Some (w', (ok, err)) ->
  (err <> None -> ok = false) /\
  (ok = true ->
   err = None /\
   exists uri resp out,
     uriForAPI client (gs "/v1/validate") = inl uri /\
     HttpClient client (pred (sent w'))
       {| req_method := gs "GET"; req_url := uri; req_body := None;
          req_header := ∅; req_ctx := Background |} = Answered resp /\
     (200 <= StatusCode resp < 300 \/ 400 <= StatusCode resp < 500) /\
     body_err (RespBody resp) = None /\
     unmarshal_valid (body_bytes (RespBody resp)) = (out, None) /\
     IsValid out = true).
Proof.
  unfold Validate. intros H.
  destruct (uriForAPI client (gs "/v1/validate")) as [uri|e];
    [|by injection H as <- <- <-].
  destruct (http_NewRequest_err (gs "GET") uri);
    [by injection H as <- <- <-|].
  destruct (doRequestWithRetries fuel client _ w)
    as [[w1 [resp [e|]]]|] eqn:Hdo; [| |done].
  { assert (Some (w1, (false, Some e)) = Some (w', (ok, err)))
      as [= <- <- <-] by (by destruct resp).
    done. }
  destruct (doRequestWithRetries_success _ _ _ _ _ _ Hdo)
    as (r & -> & Hcode & _ & Hlast).
  unfold ReadAll in H.
  destruct (body_err (RespBody r)) as [e|] eqn:Hread;
    [by injection H as <- <- <-|].
  destruct (unmarshal_valid (body_bytes (RespBody r))) as [out [e|]] eqn:Hdec;
    injection H as <- <- <-; [done|].
  split; [done|]. intros Hok. split; [done|].
  by exists uri, r, out.
Qed.

(** X17.  [Validate] and [doRequestWithContext] send the same request for
    a [GET] of [/v1/validate], but when the retries end with an error,
    [Validate] returns that error as it is, where [doRequestWithContext]
    returns it redacted. *)
Theorem Validate_unredacted unmarshal_valid fuel client w uri w' resp e :
  uriForAPI client (gs "/v1/validate") = inl uri ->
  http_NewRequest_err (gs "GET") uri = None ->
  doRequestWithRetries fuel client
    {| req_method := gs "GET"; req_url := uri; req_body := None;
       req_header := ∅; req_ctx := Background |} w
    = Some (w', (resp, Some e)) ->
  Validate unmarshal_valid fuel client w = Some (w', (false, Some e)) /\
  forall out,
    doRequestWithContext fuel client None (gs "GET") (gs "/v1/validate")
      None out w
    = Some (mkResult w' out zero_metadata
              (redactKeysFromError (Some e) [apiKey client; appKey client])).
Proof.
  intros Huri Hnew Hdo. split.
  - unfold Validate. rewrite Huri, Hnew, Hdo. by destruct resp.
  - intros out. unfold doRequestWithContext.
    rewrite Huri, validate_request_built by done.
    change (doerForMethod (gs "GET")) with doRequestWithRetries_doer.
    cbn [attach call_doer]. rewrite Hdo. by destruct resp.
Qed.

End ClientProperties.

(** ** The properties above on sample inputs *)

Lemma doRequestWithContext_sends_witness :
  @doRequestWithContext Sample.lib 0
    (Sample.client "k3y" "s3cr3t" Sample.refusing) None (gs "GET")
    (gs "/v1/%zz") None None Sample.world0
  = Some (mkResult Sample.world0 None zero_metadata
            (Some (foreignError (gs "*url.Error")
                     (Sample.json "parse 'https://app.datadoghq.com/api/v1/%zz': invalid URL escape '%zz'")))).
Proof.
  apply (proj1 (@doRequestWithContext_sends Sample.lib 0
                  (Sample.client "k3y" "s3cr3t" Sample.refusing) None
                  (gs "GET") (gs "/v1/%zz") None None Sample.world0)).
  reflexivity.
Defined.

Lemma doRequestWithContext_first_answer_witness :
  @doRequestWithContext Sample.lib 1
    (Sample.client "k3y" "s3cr3t"
       (Sample.answering
          (Sample.response 404 "404 Not Found" ∅ (gs "no such host"))))
    None (gs "GET") (gs "/v1/x") None None Sample.world0
  = Some (mkResult {| sent := 1; notified := [] |} None zero_metadata
            (Some (errorString
                     (gs "API error 404 Not Found: no such host")))).
Proof.
  rewrite (@doRequestWithContext_first_answer Sample.lib 0
             (Sample.client "k3y" "s3cr3t"
                (Sample.answering
                   (Sample.response 404 "404 Not Found" ∅
                      (gs "no such host"))))
             None (gs "GET") (gs "/v1/x") None None Sample.world0
             (gs "https://app.datadoghq.com/api/v1/x?api_key=k3y&application_key=s3cr3t")
             (Sample.request "GET")
             (Sample.response 404 "404 Not Found" ∅ (gs "no such host"))).
  - reflexivity.
  - reflexivity.
  - reflexivity.
  - reflexivity.
  - right. right. right. simpl. lia.
Defined.

Lemma handleResponse_undecoded_witness :
  exists e,
    @handleResponse Sample.lib
      (Sample.response 503 "503 Service Unavailable" ∅ (gs "try later"))
      (Some []) = (Some [], Some e) /\
    Error e = gs "API error " ++ gs "503 Service Unavailable" ++ gs ": "
              ++ gs "try later" /\
    Occurs (gs "503 Service Unavailable") (Error e) /\
    Occurs (gs "try later") (Error e).
Proof.
  apply (proj2 (@handleResponse_undecoded Sample.lib
                  (Sample.response 503 "503 Service Unavailable" ∅
                     (gs "try later"))
                  (Some []))).
  - reflexivity.
  - right. simpl. lia.
Defined.

Lemma handleResponse_empty_body_witness :
  @handleResponse Sample.lib (Sample.response 204 "204 No Content" ∅ [])
    (Some [])
  = @handleResponse Sample.lib
      (Sample.response 204 "204 No Content" ∅ (gs "{}")) (Some []).
Proof.
  apply (@handleResponse_empty_body Sample.lib
           (Sample.response 204 "204 No Content" ∅ []) (Some [])).
  - simpl. lia.
  - reflexivity.
Defined.

Lemma newJSONRequest_built_witness :
  let req :=
    {| req_method := gs "POST"; req_url := gs "https://app.datadoghq.com/api/v1/x";
       req_body := Some (gs "{}");
       req_header := Header_Add ∅ (gs "Content-Type") (gs "application/json");
       req_ctx := Background |} in
  req_ctx req = Background /\
  @http_NewRequest_err Sample.lib (gs "POST")
    (gs "https://app.datadoghq.com/api/v1/x") = None /\
  @json_Marshal Sample.lib (gs "{}") = (default [] (req_body req), None) /\
  req_body req <> None /\
  Header_Get (req_header req) (gs "content-type") = gs "application/json" /\
  forall key,
    CanonicalMIMEHeaderKey key <> gs "Content-Type" ->
    Header_Get (req_header req) key = [].
Proof.
  exact (@newJSONRequest_built Sample.lib (gs "POST")
           (gs "https://app.datadoghq.com/api/v1/x") (Some (gs "{}")) _
           eq_refl).
Defined.

Lemma uriForAPI_query_witness :
  exists q : Values,
    @uriForAPI Sample.lib (Sample.client "k3y" "s3cr3t" Sample.refusing)
      (gs "/v1/x")
    = inl (gs "https://app.datadoghq.com/api/v1/x" ++ gs "?"
           ++ Sample.encode_values q) /\
    q !! gs "api_key" = Some ([] ++ [gs "k3y"]) /\
    q !! gs "application_key" = Some ([] ++ [gs "s3cr3t"]) /\
    forall key,
      key <> gs "api_key" -> key <> gs "application_key" ->
      q !! key = (∅ : Values) !! key.
Proof.
  apply (@uriForAPI_query Sample.lib
           (Sample.client "k3y" "s3cr3t" Sample.refusing) (gs "/v1/x")
           (gs "https://app.datadoghq.com/api/v1/x")).
  reflexivity.
Defined.

Lemma redactKeysFromError_idempotent_witness :
  redactKeysFromError
    (Some (errorString (gs "Get /api/v1/x?api_key=redacted: refused")))
    [gs "k3y"; []]
  = Some (errorString (gs "Get /api/v1/x?api_key=redacted: refused")).
Proof.
  apply (redactKeysFromError_idempotent
           (foreignError (gs "*url.Error")
              (gs "Get /api/v1/x?api_key=k3y: refused"))).
  - constructor; [by right|]. constructor; [by left|]. constructor.
  - reflexivity.
Defined.

Lemma intFromHeader_decimal_witness :
  intFromHeader (<[gs "X-Ratelimit-Limit" := [Itoa 3000; gs "x"]]> ∅)
    (gs "X-RateLimit-Limit")
  = 3000.
Proof.
  apply (intFromHeader_decimal
           (<[gs "X-Ratelimit-Limit" := [Itoa 3000; gs "x"]]> ∅)
           (gs "X-RateLimit-Limit") 3000 [gs "x"]).
  reflexivity.
Defined.

Lemma newRateLimitFromHeaders_entries_witness :
  @newRateLimitFromHeaders Sample.lib
    (<[gs "Content-Type" := [gs "application/json"]]>
       (<[gs "X-Ratelimit-Limit" := [gs "10"]]> ∅))
  = @newRateLimitFromHeaders Sample.lib
      (<[gs "X-Ratelimit-Limit" := [gs "10"]]> ∅).
Proof.
  apply (@newRateLimitFromHeaders_entries Sample.lib); reflexivity.
Defined.

Lemma NewClient_defaults_witness :
  @GetBaseUrl Sample.lib
    (NewClient (gs "https://eu.example.org") Sample.refusing
       (gs "k3y") (gs "s3cr3t"))
  = gs "https://eu.example.org".
Proof.
  apply (proj1 (proj2 (@NewClient_defaults Sample.lib
                         (gs "https://eu.example.org") Sample.refusing
                         (gs "k3y") (gs "s3cr3t")))).
  discriminate.
Defined.

Lemma Validate_true_witness :
  (@None error <> None -> true = false) /\
  (true = true ->
   @None error = None /\
   exists uri resp out,
     @uriForAPI Sample.lib
       (Sample.client "k3y" "s3cr3t"
          (Sample.answering
             (Sample.response 200 "200 OK" ∅ (Sample.json "{'valid':true}"))))
       (gs "/v1/validate") = inl uri /\
     Sample.answering
       (Sample.response 200 "200 OK" ∅ (Sample.json "{'valid':true}")) 0
       {| req_method := gs "GET"; req_url := uri; req_body := None;
          req_header := ∅; req_ctx := Background |} = Answered resp /\
     (200 <= StatusCode resp < 300 \/ 400 <= StatusCode resp < 500) /\
     body_err (RespBody resp) = None /\
     Sample.unmarshal_valid (body_bytes (RespBody resp)) = (out, None) /\
     IsValid out = true).
Proof.
  exact (@Validate_true Sample.lib Sample.unmarshal_valid 1
           (Sample.client "k3y" "s3cr3t"
              (Sample.answering
                 (Sample.response 200 "200 OK" ∅
                    (Sample.json "{'valid':true}"))))
           Sample.world0 {| sent := 1; notified := [] |} true None eq_refl).
Defined.

Lemma Validate_unredacted_witness :
  @Validate Sample.lib Sample.unmarshal_valid 1
    (Sample.retrying_client [] false Sample.refusing) Sample.world0
  = Some ({| sent := 1; notified := [] |},
          (false,
           Some (foreignError (gs "*url.Error")
                   (gs "GET https://app.datadoghq.com/api/v1/validate?api_key=k3y&application_key=s3cr3t: dial tcp: connection refused")))) /\
  forall out,
    @doRequestWithContext Sample.lib 1
      (Sample.retrying_client [] false Sample.refusing) None (gs "GET")
      (gs "/v1/validate") None out Sample.world0
    = Some (mkResult {| sent := 1; notified := [] |} out zero_metadata
              (redactKeysFromError
                 (Some (foreignError (gs "*url.Error")
                          (gs "GET https://app.datadoghq.com/api/v1/validate?api_key=k3y&application_key=s3cr3t: dial tcp: connection refused")))
                 [gs "k3y"; gs "s3cr3t"])).
Proof.
  apply (@Validate_unredacted Sample.lib Sample.unmarshal_valid 1
           (Sample.retrying_client [] false Sample.refusing) Sample.world0
           (gs "https://app.datadoghq.com/api/v1/validate?api_key=k3y&application_key=s3cr3t")
           {| sent := 1; notified := [] |} None).
  - reflexivity.
  - reflexivity.
  - reflexivity.
Defined.

Lemma doRequestWithContext_mutating_once_witness :
  exists r,
    @doRequestWithContext Sample.lib 0
      (Sample.client "k3y" "s3cr3t"
         (Sample.answering
            (Sample.response 503 "503 Service Unavailable" ∅ [])))
      None (gs "POST") (gs "/v1/x") None None Sample.world0 = Some r /\
    sent (res_world r) = 1%nat.
Proof.
  apply (@doRequestWithContext_mutating_once Sample.lib 0
           (Sample.client "k3y" "s3cr3t"
              (Sample.answering
                 (Sample.response 503 "503 Service Unavailable" ∅ [])))
           None (gs "POST") (gs "/v1/x") None None Sample.world0).
  reflexivity.
Defined.
